(** * Options analytics of tradelens-py: open interest and max pain

    A shallow embedding of [modules/providers/tradier.py] (the strike-keyed
    extractors and the open interest aggregator) and of
    [modules/max_pain.py] (the max pain calculator), with the properties
    the specification states about them.

    Conventions of the embedding.
    - The option chain is the list of per-contract records that
      [Tradier.get_options_chain(...).get('data')] hands to the extractors;
      the HTTP request that produces it is outside the model.
    - Strikes and open interest are exact numbers, [Z]; a strike is counted
      in the smallest price increment. Python evaluates the same
      expressions on floats; rounding is not modelled.
    - A Python [dict] keeps its keys in insertion order and an assignment
      to a present key keeps the key's position: it is an association
      list, [dict_set] being [d[k] = v].
    - A raised exception is [Raise e] in the [result] monad. *)

From Stdlib Require Import ZArith QArith.
From stdpp Require Import base tactics option list sorting strings.

Local Open Scope string_scope.
Local Open Scope list_scope.
Local Open Scope Z_scope.

(** ** Exceptions and the error monad *)

Inductive exn : Type :=
  | ZeroDivisionError
  | IndexError
  | ValueError
  | StopIteration
  | AttributeError.

Inductive result (A : Type) : Type :=
  | Ok (a : A)
  | Raise (e : exn).

Arguments Ok {A} a.
Arguments Raise {A} e.

#[global] Instance result_ret : MRet result := fun A a => Ok a.

#[global] Instance result_bind : MBind result := fun A B f m =>
  match m with
  | Ok a => f a
  | Raise e => Raise e
  end.

(** [for x in xs: acc = body(acc, x)], where the body may raise. *)
Fixpoint for_fold {A B : Type} (body : B -> A -> result B) (acc : B) (xs : list A)
  : result B :=
  match xs with
  | [] => Ok acc
  | x :: xs' => acc' ← body acc x; for_fold body acc' xs'
  end.

(** [for x in xs: out.append(body(x))], where the body may raise. *)
Fixpoint for_append {A B : Type} (body : A -> result B) (xs : list A)
  : result (list B) :=
  match xs with
  | [] => Ok []
  | x :: xs' => y ← body x; ys ← for_append body xs'; Ok (y :: ys)
  end.

(** [range(n)] *)
Definition range (n : nat) : list nat := seq 0 n.

(** [xs[i]] for an index [i >= 0]: [IndexError] past the end. *)
Definition index {A : Type} (xs : list A) (i : nat) : result A :=
  match xs !! i with
  | Some x => Ok x
  | None => Raise IndexError
  end.

(** [a / b] on integers: true division, exact here. *)
Definition true_div (a b : Z) : result Q :=
  if decide (b = 0) then Raise ZeroDivisionError
  else Ok (inject_Z a / inject_Z b)%Q.

(** [min(xs)]: [ValueError] on an empty list. *)
Definition py_min (xs : list Z) : result Z :=
  match xs with
  | [] => Raise ValueError
  | x :: xs' => Ok (foldl Z.min x xs')
  end.

(** [sorted(set(xs))]: the distinct elements in ascending order. *)
Definition sorted_set (xs : list Z) : list Z :=
  merge_sort Z.le (remove_dups xs).

(** ** Insertion-ordered dictionaries keyed by strike *)

Definition dict (V : Type) : Type := list (Z * V).

(** [d[k] = v] *)
Fixpoint dict_set {V : Type} (k : Z) (v : V) (d : dict V) : dict V :=
  match d with
  | [] => [(k, v)]
  | (k', v') :: d' =>
      if decide (k' = k) then (k', v) :: d'
      else (k', v') :: dict_set k v d'
  end.

(** ** The option chain *)

Record Greeks : Type := {
  delta : Q;
  gamma : Q;
  theta : Q;
  vega : Q;
  rho : Q;
  mid_iv : option Q
}.

(** One record of the provider's chain. A missing ['greeks'] value is
    [None]; so is a null price. *)
Record Contract : Type := {
  strike : Z;
  option_type : string;
  open_interest : Z;
  volume : Z;
  greeks : option Greeks;
  last : option Q;
  bid : option Q;
  ask : option Q
}.

(** The entries [{'strike': k, '<field>': v}] of the extractors' lists. *)
Record StrikeValue (V : Type) : Type := {
  sv_strike : Z;
  sv_value : V
}.

Arguments sv_strike {V} _.
Arguments sv_value {V} _.

Module Tradier.

(** The loop shared by the extractors:
    [[
      for strike in options_chain:
          if strike['option_type'] == 'call':
              call_data[strike['strike']] = <field of strike>
          elif strike['option_type'] == 'put':
              put_data[strike['strike']] = <field of strike>
    ]]
    [field] is the expression on the right-hand side; it may raise. *)
Fixpoint by_type {V : Type} (field : Contract -> result V)
    (options_chain : list Contract) (call_data put_data : dict V)
  : result (dict V * dict V) :=
  match options_chain with
  | [] => Ok (call_data, put_data)
  | c :: rest =>
      if String.eqb (option_type c) "call" then
        v ← field c; by_type field rest (dict_set (strike c) v call_data) put_data
      else if String.eqb (option_type c) "put" then
        v ← field c; by_type field rest call_data (dict_set (strike c) v put_data)
      else by_type field rest call_data put_data
  end.

(** [[{'strike': k, '<field>': v} for k, v in data.items()]] *)
Definition items {V : Type} (data : dict V) : list (StrikeValue V) :=
  (fun kv => {| sv_strike := kv.1; sv_value := kv.2 |}) <$> data.

(** The ['data'] of the extractors without totals. *)
Record Sides (V : Type) : Type := {
  Calls : list (StrikeValue V);
  Puts : list (StrikeValue V)
}.

Arguments Calls {V} _.
Arguments Puts {V} _.

(** The ['data'] of [get_open_interest]. *)
Record OpenInterest : Type := {
  oi_Calls : list (StrikeValue Z);
  oi_Puts : list (StrikeValue Z);
  total_call_oi : Z;
  total_put_oi : Z;
  put_call_ratio : Q
}.

(** [[
      for call, put in zip(call_list, put_list):
          total_call_oi += call.get('open_interest', 0)
          total_put_oi += put.get('open_interest', 0)
    ]] *)
Definition zip_totals (call_list put_list : list (StrikeValue Z)) : Z * Z :=
  foldl (fun totals call_put =>
           (totals.1 + sv_value call_put.1, totals.2 + sv_value call_put.2))
        (0, 0) (zip call_list put_list).

Definition get_open_interest (options_chain : list Contract)
  : result OpenInterest :=
  data ← by_type (fun c => Ok (open_interest c)) options_chain [] [];
  let call_list := items data.1 in
  let put_list := items data.2 in
  let totals := zip_totals call_list put_list in
  ratio ← true_div totals.2 totals.1;
  Ok {| oi_Calls := call_list;
        oi_Puts := put_list;
        total_call_oi := totals.1;
        total_put_oi := totals.2;
        put_call_ratio := ratio |}.

Definition _get_volume (options_chain : list Contract)
  : result (Sides Z) :=
  data ← by_type (fun c => Ok (volume c)) options_chain [] [];
  Ok {| Calls := items data.1; Puts := items data.2 |}.

(** [strike['greeks'].get('mid_iv')] *)
Definition greeks_mid_iv (c : Contract) : result (option Q) :=
  match greeks c with
  | Some g => Ok (mid_iv g)
  | None => Raise AttributeError
  end.

(** The body is wrapped in [try: ... except: return {}]; [None] is the
    empty dict. *)
Definition _get_implied_volatility (options_chain : list Contract)
  : result (option (Sides (option Q))) :=
  match by_type greeks_mid_iv options_chain [] [] with
  | Ok data => Ok (Some {| Calls := items data.1; Puts := items data.2 |})
  | Raise _ => Ok None
  end.

Record LastBidAsk : Type := {
  lba_last : option Q;
  lba_bid : option Q;
  lba_ask : option Q
}.

Definition _get_last_bid_ask (options_chain : list Contract)
  : result (Sides LastBidAsk) :=
  data ← by_type (fun c => Ok {| lba_last := last c; lba_bid := bid c;
                                 lba_ask := ask c |}) options_chain [] [];
  Ok {| Calls := items data.1; Puts := items data.2 |}.

(** [_get_greeks] appends to two lists instead of assigning into two
    dicts. *)
Fixpoint greeks_by_type (option_chain : list Contract)
    (call_greeks put_greeks : list (StrikeValue (option Greeks)))
  : list (StrikeValue (option Greeks)) * list (StrikeValue (option Greeks)) :=
  match option_chain with
  | [] => (call_greeks, put_greeks)
  | c :: rest =>
      let entry := {| sv_strike := strike c; sv_value := greeks c |} in
      if String.eqb (option_type c) "call" then
        greeks_by_type rest (call_greeks ++ [entry]) put_greeks
      else if String.eqb (option_type c) "put" then
        greeks_by_type rest call_greeks (put_greeks ++ [entry])
      else greeks_by_type rest call_greeks put_greeks
  end.

Definition _get_greeks (option_chain : list Contract)
  : result (Sides (option Greeks)) :=
  let lists := greeks_by_type option_chain [] [] in
  Ok {| Calls := lists.1; Puts := lists.2 |}.

(** [plot_greeks], up to the lists it hands to the figure. *)

(** [greeks.get(greek_letter)] on the keys of the record. *)
Definition greeks_get (g : Greeks) (greek_letter : string) : option Q :=
  if String.eqb greek_letter "delta" then Some (delta g)
  else if String.eqb greek_letter "gamma" then Some (gamma g)
  else if String.eqb greek_letter "theta" then Some (theta g)
  else if String.eqb greek_letter "vega" then Some (vega g)
  else if String.eqb greek_letter "rho" then Some (rho g)
  else if String.eqb greek_letter "mid_iv" then mid_iv g
  else None.

(** [[
      for strike in greeks_.get('Calls'):
          calls[strike['strike']] = strike['greeks'].get(greek_letter)
    ]]
    There is no [try] around it: null greeks raise. *)
Definition greek_by_strike (greek_letter : string)
    (entries : list (StrikeValue (option Greeks))) : result (dict (option Q)) :=
  for_fold (fun d strike =>
              match sv_value strike with
              | Some g => Ok (dict_set (sv_strike strike) (greeks_get g greek_letter) d)
              | None => Raise AttributeError
              end)
           [] entries.

Record GreekSeries : Type := {
  call_strikes : list Z;
  call_values : list (option Q);
  put_strikes : list Z;
  put_values : list (option Q)
}.

Definition plot_greeks_data (option_chain : list Contract) (greek_letter : string)
  : result GreekSeries :=
  greeks_ ← _get_greeks option_chain;
  calls ← greek_by_strike greek_letter (Calls greeks_);
  puts ← greek_by_strike greek_letter (Puts greeks_);
  Ok {| call_strikes := calls.*1;
        call_values := calls.*2;
        put_strikes := puts.*1;
        put_values := puts.*2 |}.

(** [get_strikes] reads two other keys of the records of the chain. *)
Record Listing : Type := {
  description : string;
  symbol : string
}.

(** ['Call' in s] *)
Definition contains (sub s : string) : bool :=
  match String.index 0 sub s with
  | Some _ => true
  | None => false
  end.

(** [d[k] = v] on a dict keyed by description. *)
Fixpoint desc_set (k v : string) (d : list (string * string)) : list (string * string) :=
  match d with
  | [] => [(k, v)]
  | (k', v') :: d' =>
      if decide (k' = k) then (k', v) :: d'
      else (k', v') :: desc_set k v d'
  end.

(** [[
      for strike in options_chain:
          if 'Call' in strike.get('description'):
              call_strikes[strike['description']] = strike['symbol']
          else:
              put_strikes[strike['description']] = strike['symbol']
    ]] *)
Fixpoint strikes_by_description (options_chain : list Listing)
    (call_strikes put_strikes : list (string * string))
  : list (string * string) * list (string * string) :=
  match options_chain with
  | [] => (call_strikes, put_strikes)
  | strike :: rest =>
      if contains "Call" (description strike) then
        strikes_by_description rest
          (desc_set (description strike) (symbol strike) call_strikes) put_strikes
      else
        strikes_by_description rest call_strikes
          (desc_set (description strike) (symbol strike) put_strikes)
  end.

(** The ['data'] of [get_strikes]: the dicts under ['calls'] and ['puts']. *)
Definition get_strikes (options_chain : list Listing)
  : list (string * string) * list (string * string) :=
  strikes_by_description options_chain [] [].

End Tradier.

Module MaxPain.

(** The entries [{'strike': k, 'cash': v}]. *)
Record CashValue : Type := {
  cv_strike : Z;
  cash : Z
}.

(** The ['data'] of [get_cash_values]. *)
Record CashValues : Type := {
  Calls : list CashValue;
  Puts : list CashValue;
  Sums : list CashValue;
  max_pain : CashValue
}.

(** [get_cash_values] returns either the list [[]] or a dict with the
    cash values under ['data']. *)
Inductive Response : Type :=
  | Empty
  | Data (data : CashValues).

(** [[
      if (close - strike) * open_interest * 100 < 0:
          call_cash_value = 0
      else:
          call_cash_value = (close - strike) * open_interest * 100
    ]] *)
Definition call_cash_value (close strike open_interest : Z) : Z :=
  if decide ((close - strike) * open_interest * 100 < 0) then 0
  else (close - strike) * open_interest * 100.

Definition put_cash_value (close strike open_interest : Z) : Z :=
  if decide ((strike - close) * open_interest * 100 < 0) then 0
  else (strike - close) * open_interest * 100.

(** The inner loop, [for i in range(len(strikes)): ...], for one
    hypothetical close. *)
Definition cash_sum (cash_value : Z -> Z -> Z -> Z)
    (strikes open_interests : list Z) (close : Z) : result Z :=
  for_fold (fun sum i =>
              strike ← index strikes i;
              open_interest ← index open_interests i;
              Ok (sum + cash_value close strike open_interest))
           0 (range (length strikes)).

(** The outer loop, [for close in hypothetical_closes: ...]. *)
Definition cash_values (cash_value : Z -> Z -> Z -> Z)
    (strikes open_interests closes : list Z) : result (list CashValue) :=
  for_append (fun close =>
                sum ← cash_sum cash_value strikes open_interests close;
                Ok {| cv_strike := close; cash := sum |})
             closes.

(** [[
      for i in range(len(call_cash_values)):
          sum_ = call_cash_values[i].get('cash') + put_cash_values[i].get('cash')
          sum_cash_values.append({'strike': call_cash_values[i].get('strike'), 'cash': sum_})
    ]] *)
Definition sum_cash_values (call_cash_values put_cash_values : list CashValue)
  : result (list CashValue) :=
  for_append (fun i =>
                call ← index call_cash_values i;
                put ← index put_cash_values i;
                Ok {| cv_strike := cv_strike call; cash := cash call + cash put |})
             (range (length call_cash_values)).

(** [next(i.get('strike') for i in sum_cash_values if i.get('cash') == m)] *)
Definition next_strike (m : Z) (sum_cash_values : list CashValue) : result Z :=
  match list_find (fun e => cash e = m) sum_cash_values with
  | Some (_, e) => Ok (cv_strike e)
  | None => Raise StopIteration
  end.

(** The body of [get_cash_values] after the call of
    [get_open_interest]. [None] stands for a response that is empty or
    has no ['data']. *)
Definition cash_values_of (open_interest_for_chain : option Tradier.OpenInterest)
  : result Response :=
  match open_interest_for_chain with
  | None => Ok Empty
  | Some data =>
      let calls_data := Tradier.oi_Calls data in
      let puts_data := Tradier.oi_Puts data in
      let call_strikes := sv_strike <$> calls_data in
      let put_strikes := sv_strike <$> puts_data in
      let call_open_interest := sv_value <$> calls_data in
      let put_open_interest := sv_value <$> puts_data in
      let hypothetical_call_closes := sorted_set call_strikes in
      let hypothetical_put_closes := sorted_set put_strikes in
      call_cash_values ←
        cash_values call_cash_value call_strikes call_open_interest
                    hypothetical_call_closes;
      put_cash_values ←
        cash_values put_cash_value put_strikes put_open_interest
                    hypothetical_put_closes;
      sums ← sum_cash_values call_cash_values put_cash_values;
      max_pain_cash_value ← py_min (cash <$> sums);
      max_pain_strike ← next_strike max_pain_cash_value sums;
      Ok (Data {| Calls := call_cash_values;
                  Puts := put_cash_values;
                  Sums := sums;
                  max_pain := {| cv_strike := max_pain_strike;
                                 cash := max_pain_cash_value |} |})
  end.

(** [get_open_interest] always answers with a dict that has ['data'],
    or raises. *)
Definition get_cash_values (options_chain : list Contract) : result Response :=
  open_interest_for_chain ← Tradier.get_open_interest options_chain;
  cash_values_of (Some open_interest_for_chain).

End MaxPain.

(** ** Sample chains *)

Definition contract (k : Z) (ty : string) (oi : Z) : Contract :=
  {| strike := k; option_type := ty; open_interest := oi; volume := 0;
     greeks := None; last := None; bid := None; ask := None |}.

(** The scenario of the specification: calls 100 (10), 105 (5); puts
    100 (8), 105 (12). *)
Definition scenario_chain : list Contract :=
  [contract 100 "call" 10; contract 100 "put" 8;
   contract 105 "call" 5; contract 105 "put" 12].

(** Three call strikes against one put strike. *)
Definition uneven_chain : list Contract :=
  [contract 100 "call" 10; contract 105 "call" 5; contract 110 "call" 7;
   contract 100 "put" 8].

(** The call at 100 is listed twice. *)
Definition repeated_chain : list Contract :=
  [contract 100 "call" 10; contract 100 "put" 8; contract 100 "call" 4].

(** The provider lists the higher strike first. *)
Definition unsorted_chain : list Contract :=
  [contract 105 "call" 5; contract 100 "call" 10;
   contract 105 "put" 12; contract 100 "put" 8].

(** No open interest on the call side. *)
Definition no_call_oi_chain : list Contract :=
  [contract 100 "call" 0; contract 100 "put" 5].

(** Both strikes lose the same amount. *)
Definition tied_chain : list Contract :=
  [contract 100 "call" 1; contract 100 "put" 1;
   contract 105 "call" 1; contract 105 "put" 1].

(** The put strikes lie one step below the call strikes. *)
Definition shifted_chain : list Contract :=
  [contract 100 "call" 10; contract 105 "call" 5;
   contract 95 "put" 8; contract 100 "put" 12].

(** Two records of the call at 100 and nothing else. *)
Definition repeated_greeks_chain : list Contract :=
  [contract 100 "call" 10; contract 100 "call" 4].

(** The scenario's contracts with greeks and prices. *)
Definition quoted (c : Contract) : Contract :=
  {| strike := strike c; option_type := option_type c;
     open_interest := open_interest c; volume := 20;
     greeks := Some {| delta := (1 # 2)%Q; gamma := 0%Q; theta := 0%Q;
                       vega := 0%Q; rho := 0%Q; mid_iv := Some (1 # 4)%Q |};
     last := Some (3 # 1)%Q; bid := Some (5 # 2)%Q; ask := Some (7 # 2)%Q |}.

Definition quoted_chain : list Contract := quoted <$> scenario_chain.

(** ** Vocabulary of the statements *)

(** The keys of a dict after the assignment of a key [k]. *)
Definition add_key (ks : list Z) (k : Z) : list Z :=
  if decide (k ∈ ks) then ks else ks ++ [k].

(** The keys of a dict after assignments to the keys [ks] in order: each
    key at the place of its first occurrence. *)
Definition first_occurrences (ks : list Z) : list Z := foldl add_key [] ks.

(** The sum of a list of numbers. *)
Definition total (xs : list Z) : Z := foldr Z.add 0 xs.

(** The contracts of one option type, in provider order. *)
Definition side (ty : string) (options_chain : list Contract) : list Contract :=
  filter (fun c => option_type c = ty) options_chain.

(** The distinct strikes of one side, ascending. *)
Definition distinct_strikes (ty : string) (options_chain : list Contract) : list Z :=
  sorted_set (strike <$> side ty options_chain).

(** The assignments [d[k] = v] for the pairs of [kvs], in order. *)
Definition put_all {V : Type} (kvs : list (Z * V)) (d : dict V) : dict V :=
  foldl (fun d kv => dict_set kv.1 kv.2 d) d kvs.

(** [d.get(k)] *)
Fixpoint dict_get {V : Type} (k : Z) (d : dict V) : option V :=
  match d with
  | [] => None
  | (k', v) :: d' => if decide (k' = k) then Some v else dict_get k d'
  end.

(** The sum of a call entry and a put entry at one position. *)
Definition add_cash (call put : MaxPain.CashValue) : MaxPain.CashValue :=
  {| MaxPain.cv_strike := MaxPain.cv_strike call;
     MaxPain.cash := MaxPain.cash call + MaxPain.cash put |}.

(** The cash owed at a hypothetical close over all contracts of a side. *)
Definition cash_at (cash_value : Z -> Z -> Z -> Z)
    (strikes open_interests : list Z) (close : Z) : Z :=
  total (zip_with (cash_value close) strikes open_interests).

(** A contract as the extractor of a field [g] reads it. *)
Definition strike_with {V : Type} (g : Contract -> V) (c : Contract) : Z * V :=
  (strike c, g c).

(** The dict an extractor builds for one side from an empty dict. *)
Definition side_dict {V : Type} (g : Contract -> V) (ty : string)
    (options_chain : list Contract) : dict V :=
  put_all (strike_with g <$> side ty options_chain) [].

(** A contract as the open interest aggregator reads it, and an entry of
    one of its lists with the option type of the list. *)
Definition oi_view (c : Contract) : Z * string * Z :=
  (strike c, option_type c, open_interest c).

Definition tagged (ty : string) (e : StrikeValue Z) : Z * string * Z :=
  (sv_strike e, ty, sv_value e).

(** The cash list of one side: an entry per distinct strike, ascending. *)
Definition side_cash (cash_value : Z -> Z -> Z -> Z)
    (entries : list (StrikeValue Z)) : list MaxPain.CashValue :=
  (fun close =>
     {| MaxPain.cv_strike := close;
        MaxPain.cash := cash_at cash_value (sv_strike <$> entries)
                                (sv_value <$> entries) close |})
  <$> sorted_set (sv_strike <$> entries).

(** The entries of a list carry the strikes of one side of the chain,
    each once, at the place of its first occurrence in provider order;
    they ascend when the provider's strikes of that side do. *)
Definition distinct_in_provider_order {V : Type} (ty : string)
    (options_chain : list Contract) (l : list (StrikeValue V)) : Prop :=
  sv_strike <$> l = first_occurrences (strike <$> side ty options_chain) /\
  NoDup (sv_strike <$> l) /\
  (Sorted Z.le (strike <$> side ty options_chain) -> Sorted Z.lt (sv_strike <$> l)).

(** The entry [_get_greeks] appends for a contract. *)
Definition greeks_entry (c : Contract) : StrikeValue (option Greeks) :=
  {| sv_strike := strike c; sv_value := greeks c |}.

(** A contract the extractors keep: a call or a put. *)
Definition typed (c : Contract) : Prop :=
  option_type c = "call" \/ option_type c = "put".





(** Calls only. *)
Definition calls_only_chain : list Contract :=
  [contract 100 "call" 10; contract 105 "call" 5].

(** The quoted scenario followed by a put without greeks. *)
Definition null_greeks_chain : list Contract :=
  quoted_chain ++ [contract 110 "put" 3].

(** Records of a chain as [get_strikes] reads them; the last one is no
    option at all. *)
Definition sample_listings : list Tradier.Listing :=
  [{| Tradier.description := "AAPL Jan 17 2025 $100.00 Call";
      Tradier.symbol := "AAPL250117C00100000" |};
   {| Tradier.description := "AAPL Jan 17 2025 $100.00 Put";
      Tradier.symbol := "AAPL250117P00100000" |};
   {| Tradier.description := "AAPL Jan 17 2025 $100.00 Call";
      Tradier.symbol := "AAPL250117C00100001" |};
   {| Tradier.description := "Apple Inc"; Tradier.symbol := "AAPL" |}].

(** A decidable statement without variables holds by evaluation. *)
Ltac decide_closed := apply (bool_decide_unpack _); vm_compute; exact I.

(** ** Sample runs *)

Example scenario_max_pain :
  MaxPain.get_cash_values scenario_chain =
  Ok (MaxPain.Data
        {| MaxPain.Calls := [MaxPain.Build_CashValue 100 0; MaxPain.Build_CashValue 105 5000];
           MaxPain.Puts := [MaxPain.Build_CashValue 100 6000; MaxPain.Build_CashValue 105 0];
           MaxPain.Sums := [MaxPain.Build_CashValue 100 6000; MaxPain.Build_CashValue 105 5000];
           MaxPain.max_pain := MaxPain.Build_CashValue 105 5000 |}).
Proof. vm_compute. reflexivity. Qed.

(** ** The loops *)

Lemma bind_Ok {A B : Type} (a : A) (f : A -> result B) : (Ok a ≫= f) = f a.
Proof. reflexivity. Qed.

Lemma bind_Raise {A B : Type} (e : exn) (f : A -> result B) :
  (Raise e ≫= f) = Raise e.
Proof. reflexivity. Qed.

Lemma bind_Ok_inv {A B : Type} (m : result A) (f : A -> result B) (b : B) :
  m ≫= f = Ok b -> exists a, m = Ok a /\ f a = Ok b.
Proof. destruct m as [a|e]; [eauto | discriminate]. Qed.

Lemma index_middle {A : Type} (pre l : list A) (x : A) :
  index (pre ++ x :: l) (length pre) = Ok x.
Proof. unfold index. by rewrite list_lookup_middle. Qed.

Lemma index_end {A : Type} (l : list A) : index l (length l) = Raise IndexError.
Proof. unfold index. by rewrite lookup_ge_None_2. Qed.

Lemma total_nonneg (xs : list Z) : Forall (fun x => 0 <= x) xs -> 0 <= total xs.
Proof. induction 1; simpl; lia. Qed.

Section inner_loop.
Variable cash_value : Z -> Z -> Z -> Z.
Variable close : Z.

Let body (strikes ois : list Z) (sum : Z) (i : nat) : result Z :=
  strike ← index strikes i;
  open_interest ← index ois i;
  Ok (sum + cash_value close strike open_interest).

Lemma cash_sum_step (l l' pre pre' : list Z) (k oi acc : Z) :
  length pre = length pre' ->
  body (pre ++ k :: l) (pre' ++ oi :: l') acc (length pre) =
  Ok (acc + cash_value close k oi).
Proof. intros Hpre. unfold body. by rewrite index_middle, Hpre, index_middle. Qed.

Lemma cash_sum_from (l l' pre pre' : list Z) (acc : Z) :
  length pre = length pre' ->
  length l = length l' ->
  for_fold (body (pre ++ l) (pre' ++ l')) acc (seq (length pre) (length l)) =
  Ok (acc + total (zip_with (cash_value close) l l')).
Proof.
  revert l' pre pre' acc.
  induction l as [|k l IH]; intros [|oi l'] pre pre' acc Hpre Hl;
    try discriminate; simpl.
  - f_equal. lia.
  - rewrite cash_sum_step by done. simpl.
    rewrite (cons_middle k pre l), (cons_middle oi pre' l'), !(assoc (++)).
    replace (S (length pre)) with (length (pre ++ [k]))
      by (rewrite length_app; simpl; lia).
    rewrite IH.
    + f_equal. lia.
    + rewrite !length_app. simpl. lia.
    + simpl in Hl. lia.
Qed.

Lemma cash_sum_eq (strikes ois : list Z) :
  length strikes = length ois ->
  MaxPain.cash_sum cash_value strikes ois close =
  Ok (cash_at cash_value strikes ois close).
Proof.
  intros Hlen. unfold MaxPain.cash_sum, range, cash_at.
  apply (cash_sum_from strikes ois [] [] 0); done.
Qed.
End inner_loop.

Lemma cash_values_eq (cash_value : Z -> Z -> Z -> Z) (strikes ois closes : list Z) :
  length strikes = length ois ->
  MaxPain.cash_values cash_value strikes ois closes =
  Ok ((fun close => {| MaxPain.cv_strike := close;
                       MaxPain.cash := cash_at cash_value strikes ois close |})
      <$> closes).
Proof.
  intros Hlen. unfold MaxPain.cash_values.
  induction closes as [|close closes IH]; simpl; [done|].
  rewrite cash_sum_eq by done. simpl. by rewrite IH.
Qed.

Section sum_loop.
Let body (calls puts : list MaxPain.CashValue) (i : nat) : result MaxPain.CashValue :=
  call ← index calls i;
  put ← index puts i;
  Ok {| MaxPain.cv_strike := MaxPain.cv_strike call;
        MaxPain.cash := MaxPain.cash call + MaxPain.cash put |}.

Lemma sum_step_Ok (l l' pre pre' : list MaxPain.CashValue) (c p : MaxPain.CashValue) :
  length pre = length pre' ->
  body (pre ++ c :: l) (pre' ++ p :: l') (length pre) = Ok (add_cash c p).
Proof. intros Hpre. unfold body. by rewrite index_middle, Hpre, index_middle. Qed.

Lemma sum_step_Raise (l pre pre' : list MaxPain.CashValue) (c : MaxPain.CashValue) :
  length pre = length pre' ->
  body (pre ++ c :: l) pre' (length pre) = Raise IndexError.
Proof. intros Hpre. unfold body. by rewrite index_middle, Hpre, index_end. Qed.

Lemma sum_cash_values_from (l l' pre pre' : list MaxPain.CashValue) :
  length pre = length pre' ->
  for_append (body (pre ++ l) (pre' ++ l')) (seq (length pre) (length l)) =
  if decide (length l <= length l')%nat then Ok (zip_with add_cash l l')
  else Raise IndexError.
Proof.
  revert l' pre pre'.
  induction l as [|c l IH]; intros l' pre pre' Hpre.
  - by rewrite decide_True by (simpl; lia).
  - destruct l' as [|p l']; cbn [for_append seq length].
    + rewrite app_nil_r, sum_step_Raise by done.
      by rewrite decide_False by lia.
    + rewrite sum_step_Ok by done.
      replace (pre ++ c :: l) with ((pre ++ [c]) ++ l) by (by rewrite <- app_assoc).
      replace (pre' ++ p :: l') with ((pre' ++ [p]) ++ l') by (by rewrite <- app_assoc).
      replace (S (length pre)) with (length (pre ++ [c]))
        by (rewrite length_app; simpl; lia).
      rewrite IH by (rewrite !length_app; simpl; lia).
      destruct (decide (length l <= length l')%nat).
      * by rewrite decide_True by lia.
      * by rewrite decide_False by lia.
Qed.

Lemma sum_cash_values_eq (calls puts : list MaxPain.CashValue) :
  MaxPain.sum_cash_values calls puts =
  if decide (length calls <= length puts)%nat then Ok (zip_with add_cash calls puts)
  else Raise IndexError.
Proof. apply (sum_cash_values_from calls puts [] []). done. Qed.
End sum_loop.

(** ** Dictionaries *)

Lemma elem_of_add_key (ks : list Z) (k x : Z) : x ∈ add_key ks k <-> x ∈ ks \/ x = k.
Proof.
  unfold add_key. case_decide.
  - naive_solver.
  - rewrite elem_of_app, list_elem_of_singleton. done.
Qed.

Lemma add_key_NoDup (ks : list Z) (k : Z) : NoDup ks -> NoDup (add_key ks k).
Proof.
  intros Hks. unfold add_key. case_decide; [done|].
  apply NoDup_app. split_and!; [done| |apply NoDup_singleton].
  intros x Hx ->%list_elem_of_singleton. done.
Qed.

Lemma elem_of_add_keys (l ks : list Z) (x : Z) :
  x ∈ foldl add_key ks l <-> x ∈ ks \/ x ∈ l.
Proof.
  revert ks. induction l as [|k l IH]; intros ks; simpl.
  - rewrite elem_of_nil. naive_solver.
  - rewrite IH, elem_of_add_key, elem_of_cons. naive_solver.
Qed.

Lemma add_keys_NoDup (l ks : list Z) : NoDup ks -> NoDup (foldl add_key ks l).
Proof.
  revert ks. induction l as [|k l IH]; intros ks Hks; simpl; [done|].
  by apply IH, add_key_NoDup.
Qed.

(** Keys that arrive in ascending order stay in ascending order. *)
Lemma add_keys_sorted (l ks : list Z) :
  StronglySorted Z.lt ks ->
  (forall k x, k ∈ ks -> x ∈ l -> k <= x) ->
  StronglySorted Z.le l ->
  StronglySorted Z.lt (foldl add_key ks l).
Proof.
  revert ks. induction l as [|x l IH]; intros ks Hks Hle Hl; simpl; [done|].
  apply StronglySorted_cons in Hl as [Hx Hl]. rewrite Forall_forall in Hx.
  apply IH; [| |done].
  - unfold add_key. case_decide as Hin; [done|].
    apply StronglySorted_app_2; [|done|repeat constructor].
    intros k y Hk Hy%list_elem_of_singleton. subst y.
    assert (k <= x) by (apply Hle; [done|left]).
    assert (k <> x) by (intros ->; done). lia.
  - intros k y [Hk| ->]%elem_of_add_key Hy.
    + apply Hle; [done|by right].
    + by apply Hx.
Qed.

Lemma add_keys_nil_sorted (l : list Z) :
  Sorted Z.le l -> Sorted Z.lt (foldl add_key [] l).
Proof.
  intros Hl. apply StronglySorted_Sorted, add_keys_sorted.
  - constructor.
  - intros k x Hk. by apply elem_of_nil in Hk.
  - by apply Sorted_StronglySorted; [apply _|].
Qed.

Section dict.
Context {V : Type}.
Implicit Types (d : dict V) (k : Z) (v : V) (kvs : list (Z * V)).

Lemma keys_dict_set k v d : (dict_set k v d).*1 = add_key d.*1 k.
Proof.
  induction d as [|[k' v'] d IH]; [done|].
  cbn [dict_set]. destruct (decide (k' = k)) as [->|Hne].
  - rewrite !fmap_cons. cbn [fst]. unfold add_key.
    by rewrite decide_True by (apply elem_of_cons; by left).
  - rewrite !fmap_cons, IH. cbn [fst]. unfold add_key.
    destruct (decide (k ∈ d.*1)).
    + by rewrite decide_True by (apply elem_of_cons; by right).
    + rewrite decide_False; [done|]. rewrite elem_of_cons. naive_solver.
Qed.

Lemma dict_set_fresh k v d : k ∉ d.*1 -> dict_set k v d = d ++ [(k, v)].
Proof.
  induction d as [|[k' v'] d IH]; simpl; [done|].
  intros Hk. apply not_elem_of_cons in Hk as [Hne Hk].
  rewrite decide_False by done. by rewrite IH.
Qed.

Lemma dict_get_set_eq k v d : dict_get k (dict_set k v d) = Some v.
Proof.
  induction d as [|[k' v'] d IH]; simpl.
  - by rewrite decide_True.
  - case_decide; simpl; [by rewrite decide_True|by rewrite decide_False].
Qed.

Lemma dict_get_set_ne k k' v d :
  k <> k' -> dict_get k' (dict_set k v d) = dict_get k' d.
Proof.
  intros Hne. induction d as [|[k0 v0] d IH]; simpl.
  - by rewrite decide_False.
  - case_decide; simpl.
    + subst. by rewrite !decide_False.
    + by rewrite IH.
Qed.

Lemma dict_get_elem_of k v d : NoDup d.*1 -> (k, v) ∈ d <-> dict_get k d = Some v.
Proof.
  induction d as [|[k' v'] d IH]; simpl; intros Hnd.
  - rewrite elem_of_nil. naive_solver.
  - apply NoDup_cons in Hnd as [Hk' Hnd]. rewrite elem_of_cons, IH by done.
    case_decide as Hk.
    + subst. split; [intros [?|Hget]|]; [congruence| |naive_solver].
      exfalso. apply Hk'. apply IH in Hget; [|done].
      by apply (list_elem_of_fmap_2 fst) in Hget.
    + naive_solver.
Qed.

Lemma keys_put_all kvs d : (put_all kvs d).*1 = foldl add_key d.*1 kvs.*1.
Proof.
  unfold put_all. revert d.
  induction kvs as [|[k v] kvs IH]; intros d; simpl; [done|].
  by rewrite IH, keys_dict_set.
Qed.

(** Last write wins. *)
Lemma dict_get_put_all k kvs d :
  dict_get k (put_all kvs d) =
  match list.last (filter (fun kv => kv.1 = k) kvs) with
  | Some kv => Some kv.2
  | None => dict_get k d
  end.
Proof.
  unfold put_all. revert d.
  induction kvs as [|[k' v'] kvs IH]; intros d; simpl; [done|].
  rewrite IH, filter_cons. simpl. case_decide as Hk.
  - subst. rewrite last_cons.
    destruct (list.last (filter _ kvs)); [done|]. apply dict_get_set_eq.
  - destruct (list.last (filter _ kvs)); [done|]. by apply dict_get_set_ne.
Qed.

Lemma put_all_fresh kvs d : NoDup (d.*1 ++ kvs.*1) -> put_all kvs d = d ++ kvs.
Proof.
  unfold put_all. revert d.
  induction kvs as [|[k v] kvs IH]; intros d Hnd; simpl.
  - by rewrite app_nil_r.
  - simpl in Hnd. rewrite dict_set_fresh.
    + rewrite IH; [by rewrite <- app_assoc|].
      rewrite fmap_app. simpl. by rewrite <- app_assoc.
    + apply NoDup_app in Hnd as (_ & Hnd & _). intros Hk.
      apply (Hnd _ Hk). left.
Qed.
End dict.

(** ** The extractors' loop *)

Lemma side_cons (ty : string) (c : Contract) (chain : list Contract) :
  side ty (c :: chain) =
  if decide (option_type c = ty) then c :: side ty chain else side ty chain.
Proof. unfold side. by rewrite filter_cons. Qed.

Lemma items_strikes {V : Type} (d : dict V) : sv_strike <$> Tradier.items d = d.*1.
Proof. unfold Tradier.items. by rewrite <- list_fmap_compose. Qed.

Lemma items_values {V : Type} (d : dict V) : sv_value <$> Tradier.items d = d.*2.
Proof. unfold Tradier.items. by rewrite <- list_fmap_compose. Qed.

Lemma items_length {V : Type} (d : dict V) : length (Tradier.items d) = length d.
Proof. unfold Tradier.items. apply length_fmap. Qed.

(** A field that cannot raise: the loop ends and builds the two dicts by
    the assignments of each side. *)
Lemma by_type_total {V : Type} (g : Contract -> V) (chain : list Contract)
    (cd pd : dict V) :
  Tradier.by_type (fun c => Ok (g c)) chain cd pd =
  Ok (put_all (strike_with g <$> side "call" chain) cd,
      put_all (strike_with g <$> side "put" chain) pd).
Proof.
  revert cd pd. induction chain as [|c chain IH]; intros cd pd; [done|].
  cbn [Tradier.by_type]. rewrite !side_cons.
  destruct (String.eqb_spec (option_type c) "call") as [Hc|Hc].
  - rewrite bind_Ok, IH, decide_True by done.
    by rewrite decide_False by (by rewrite Hc).
  - rewrite (decide_False (P := option_type c = "call")) by done.
    destruct (String.eqb_spec (option_type c) "put") as [Hp|Hp].
    + by rewrite bind_Ok, IH, decide_True by done.
    + by rewrite IH, decide_False by done.
Qed.

(** Whatever the field, the keys of the two dicts depend on the strikes of
    each side only. *)
Lemma by_type_keys {V : Type} (field : Contract -> result V)
    (chain : list Contract) (cd pd : dict V) (data : dict V * dict V) :
  Tradier.by_type field chain cd pd = Ok data ->
  data.1.*1 = foldl add_key cd.*1 (strike <$> side "call" chain) /\
  data.2.*1 = foldl add_key pd.*1 (strike <$> side "put" chain).
Proof.
  revert cd pd. induction chain as [|c chain IH]; intros cd pd Hdata.
  { by injection Hdata as <-. }
  cbn [Tradier.by_type] in Hdata. rewrite !side_cons.
  destruct (String.eqb_spec (option_type c) "call") as [Hc|Hc].
  - apply bind_Ok_inv in Hdata as (v & _ & Hdata).
    apply IH in Hdata as [-> ->]. rewrite decide_True by done.
    rewrite decide_False by (by rewrite Hc). by rewrite keys_dict_set.
  - rewrite (decide_False (P := option_type c = "call")) by done.
    destruct (String.eqb_spec (option_type c) "put") as [Hp|Hp].
    + apply bind_Ok_inv in Hdata as (v & _ & Hdata).
      apply IH in Hdata as [-> ->]. rewrite decide_True by done.
      by rewrite keys_dict_set.
    + apply IH in Hdata as [-> ->]. by rewrite decide_False by done.
Qed.

Lemma side_dict_keys {V : Type} (g : Contract -> V) (ty : string)
    (chain : list Contract) :
  (side_dict g ty chain).*1 = foldl add_key [] (strike <$> side ty chain).
Proof.
  unfold side_dict. rewrite keys_put_all. f_equal.
  induction (side ty chain) as [|c l IH]; [done|].
  cbn. f_equal. apply IH.
Qed.

(** ** The open interest aggregator *)

Lemma zip_totals_from (cl pl : list (StrikeValue Z)) (a b : Z) :
  foldl (fun totals call_put =>
           (totals.1 + sv_value call_put.1, totals.2 + sv_value call_put.2))
        (a, b) (zip cl pl) =
  (a + total (sv_value <$> take (min (length cl) (length pl)) cl),
   b + total (sv_value <$> take (min (length cl) (length pl)) pl)).
Proof.
  revert pl a b. induction cl as [|c cl IH]; intros [|p pl] a b; cbn;
    try (f_equal; lia).
  rewrite IH. unfold total. cbn. f_equal; lia.
Qed.

Lemma zip_totals_eq (cl pl : list (StrikeValue Z)) :
  Tradier.zip_totals cl pl =
  (total (sv_value <$> take (min (length cl) (length pl)) cl),
   total (sv_value <$> take (min (length cl) (length pl)) pl)).
Proof. unfold Tradier.zip_totals. by rewrite zip_totals_from. Qed.

Lemma get_open_interest_eq (chain : list Contract) :
  Tradier.get_open_interest chain =
  let call_list := Tradier.items (side_dict open_interest "call" chain) in
  let put_list := Tradier.items (side_dict open_interest "put" chain) in
  let totals := Tradier.zip_totals call_list put_list in
  ratio ← true_div totals.2 totals.1;
  Ok {| Tradier.oi_Calls := call_list;
        Tradier.oi_Puts := put_list;
        Tradier.total_call_oi := totals.1;
        Tradier.total_put_oi := totals.2;
        Tradier.put_call_ratio := ratio |}.
Proof. unfold Tradier.get_open_interest. by rewrite by_type_total. Qed.

Lemma get_open_interest_Ok (chain : list Contract) (r : Tradier.OpenInterest) :
  Tradier.get_open_interest chain = Ok r ->
  Tradier.oi_Calls r = Tradier.items (side_dict open_interest "call" chain) /\
  Tradier.oi_Puts r = Tradier.items (side_dict open_interest "put" chain) /\
  (Tradier.total_call_oi r, Tradier.total_put_oi r) =
    Tradier.zip_totals (Tradier.oi_Calls r) (Tradier.oi_Puts r) /\
  Tradier.total_call_oi r <> 0 /\
  Tradier.put_call_ratio r =
    (inject_Z (Tradier.total_put_oi r) / inject_Z (Tradier.total_call_oi r))%Q.
Proof.
  rewrite get_open_interest_eq. cbv zeta. unfold true_div.
  case_decide as Hz; [discriminate|]. rewrite bind_Ok.
  intros [= <-]. cbn. split_and!; try done.
  unfold Tradier.zip_totals. by destruct (foldl _ _ _).
Qed.

(** ** One side of the chain *)

Lemma filter_strike_with {V : Type} (g : Contract -> V) (k : Z) (cs : list Contract) :
  filter (fun kv => kv.1 = k) (strike_with g <$> cs) =
  strike_with g <$> filter (fun c => strike c = k) cs.
Proof.
  induction cs as [|c cs IH]; [done|].
  rewrite fmap_cons, !filter_cons. cbn [strike_with fst].
  case_decide; [rewrite fmap_cons|]; by rewrite IH.
Qed.

Lemma side_dict_NoDup {V : Type} (g : Contract -> V) (ty : string)
    (chain : list Contract) :
  NoDup (side_dict g ty chain).*1.
Proof. rewrite side_dict_keys. apply add_keys_NoDup, NoDup_nil_2. Qed.

Lemma side_dict_strikes {V : Type} (g : Contract -> V) (ty : string)
    (chain : list Contract) (k : Z) :
  k ∈ (side_dict g ty chain).*1 <-> k ∈ strike <$> side ty chain.
Proof. rewrite side_dict_keys, elem_of_add_keys, elem_of_nil. naive_solver. Qed.

Lemma side_dict_last {V : Type} (g : Contract -> V) (ty : string)
    (chain : list Contract) (k : Z) (v : V) :
  (k, v) ∈ side_dict g ty chain <->
  exists c, list.last (filter (fun c => strike c = k) (side ty chain)) = Some c /\
            v = g c.
Proof.
  rewrite dict_get_elem_of by apply side_dict_NoDup.
  unfold side_dict. rewrite dict_get_put_all, filter_strike_with, fmap_last.
  destruct (list.last _) as [c|]; simpl; naive_solver.
Qed.

Lemma side_dict_unique {V : Type} (g : Contract -> V) (ty : string)
    (chain : list Contract) :
  NoDup (strike <$> side ty chain) ->
  side_dict g ty chain = strike_with g <$> side ty chain.
Proof.
  intros Hnd. unfold side_dict. rewrite put_all_fresh; [done|].
  rewrite app_nil_l, <- list_fmap_compose. exact Hnd.
Qed.

Lemma side_strikes_NoDup (ty : string) (chain : list Contract) :
  NoDup ((fun c => (strike c, option_type c)) <$> chain) ->
  NoDup (strike <$> side ty chain).
Proof.
  induction chain as [|c chain IH]; [constructor|].
  rewrite fmap_cons, NoDup_cons. intros [Hc Hnd]. rewrite side_cons.
  case_decide as Hty; [|by apply IH].
  rewrite fmap_cons. apply NoDup_cons. split; [|by apply IH].
  intros (c' & Hk & Hc')%list_elem_of_fmap. apply Hc.
  apply list_elem_of_filter in Hc' as [Hty' Hc'].
  apply list_elem_of_fmap. exists c'. split; [congruence|done].
Qed.

Lemma tagged_side (ty : string) (chain : list Contract) :
  tagged ty <$> Tradier.items (strike_with open_interest <$> side ty chain) =
  oi_view <$> side ty chain.
Proof.
  induction chain as [|c chain IH]; [done|].
  rewrite side_cons. case_decide as Hty; [|done].
  cbn. f_equal; [|exact IH]. unfold tagged, oi_view. cbn. by rewrite Hty.
Qed.

Lemma sides_Permutation (chain : list Contract) :
  Forall (fun c => option_type c = "call" \/ option_type c = "put") chain ->
  side "call" chain ++ side "put" chain ≡ₚ chain.
Proof.
  induction 1 as [|c chain Hc _ IH]; [done|].
  rewrite !side_cons. destruct Hc as [Hc|Hc]; rewrite Hc.
  - rewrite decide_True, decide_False by done. simpl. by constructor.
  - rewrite decide_False, decide_True by done.
    rewrite <- Permutation_middle. by constructor.
Qed.

(** ** Sorting and minima *)

Lemma StronglySorted_le_lt (l : list Z) :
  StronglySorted Z.le l -> NoDup l -> StronglySorted Z.lt l.
Proof.
  induction 1 as [|x l Hl IH Hx]; intros Hnd; [constructor|].
  apply NoDup_cons in Hnd as [Hin Hnd]. constructor; [by apply IH|].
  rewrite Forall_forall in *. intros y Hy.
  assert (x <> y) by (intros ->; done). specialize (Hx y Hy). lia.
Qed.

Lemma sorted_set_sorted (l : list Z) : StronglySorted Z.lt (sorted_set l).
Proof.
  unfold sorted_set. apply StronglySorted_le_lt.
  - apply StronglySorted_merge_sort; apply _.
  - rewrite merge_sort_Permutation. apply NoDup_remove_dups.
Qed.

Lemma elem_of_sorted_set (l : list Z) (x : Z) : x ∈ sorted_set l <-> x ∈ l.
Proof. unfold sorted_set. by rewrite merge_sort_Permutation, elem_of_remove_dups. Qed.

Lemma sorted_set_ext (l1 l2 : list Z) :
  (forall x, x ∈ l1 <-> x ∈ l2) -> sorted_set l1 = sorted_set l2.
Proof.
  intros Heq. unfold sorted_set.
  apply (StronglySorted_unique Z.le);
    [apply StronglySorted_merge_sort; apply _..|].
  rewrite !merge_sort_Permutation.
  apply NoDup_Permutation; [apply NoDup_remove_dups..|].
  intros x. by rewrite !elem_of_remove_dups.
Qed.

Lemma sorted_set_NoDup_length (l : list Z) : NoDup l -> length (sorted_set l) = length l.
Proof.
  intros Hnd. unfold sorted_set. rewrite merge_sort_Permutation.
  apply Permutation_length, NoDup_Permutation;
    [apply NoDup_remove_dups|done|apply elem_of_remove_dups].
Qed.

Lemma StronglySorted_lookup_lt {A : Type} (R : relation A) (l : list A)
    (i j : nat) (x y : A) :
  StronglySorted R l -> l !! i = Some x -> l !! j = Some y -> (i < j)%nat -> R x y.
Proof.
  intros Hl. revert i j. induction Hl as [|z l Hl IH Hz]; intros i j Hi Hj Hlt.
  { by rewrite lookup_nil in Hi. }
  destruct j as [|j]; [lia|]. rewrite lookup_cons in Hj.
  destruct i as [|i].
  - injection Hi as ->. rewrite Forall_forall in Hz.
    by apply Hz, list_elem_of_lookup_2 with j.
  - apply (IH i j); [done..|lia].
Qed.

Lemma foldl_min_le (l : list Z) (x : Z) :
  foldl Z.min x l <= x /\ Forall (fun y => foldl Z.min x l <= y) l.
Proof.
  revert x. induction l as [|y l IH]; intros x; simpl; [split; [lia|constructor]|].
  destruct (IH (Z.min x y)) as [Hx Hl]. split; [lia|].
  constructor; [lia|done].
Qed.

Lemma foldl_min_elem_of (l : list Z) (x : Z) : foldl Z.min x l ∈ x :: l.
Proof.
  revert x. induction l as [|y l IH]; intros x; simpl; [left|].
  specialize (IH (Z.min x y)). apply elem_of_cons in IH as [->|IH].
  - destruct (Z.min_spec x y) as [[_ ->]|[_ ->]]; [left|right; left].
  - by do 2 right.
Qed.

Lemma py_min_Ok (l : list Z) (m : Z) :
  py_min l = Ok m -> m ∈ l /\ forall y, y ∈ l -> m <= y.
Proof.
  destruct l as [|x l]; [discriminate|]. intros [= <-].
  split; [apply foldl_min_elem_of|].
  destruct (foldl_min_le l x) as [Hx Hl]. rewrite Forall_forall in Hl.
  intros y [->|Hy]%elem_of_cons; [done|by apply Hl].
Qed.

Lemma py_min_is_Ok (l : list Z) : l <> [] -> exists m, py_min l = Ok m.
Proof. destruct l; [done|]. simpl. eauto. Qed.

(** ** The max pain calculator *)

Lemma side_cash_strikes (f : Z -> Z -> Z -> Z) (entries : list (StrikeValue Z)) :
  MaxPain.cv_strike <$> side_cash f entries = sorted_set (sv_strike <$> entries).
Proof.
  unfold side_cash. rewrite <- list_fmap_compose.
  induction (sorted_set _) as [|k ks IH]; [done|]. cbn. f_equal. exact IH.
Qed.

Lemma side_cash_length (f : Z -> Z -> Z -> Z) (entries : list (StrikeValue Z)) :
  length (side_cash f entries) = length (sorted_set (sv_strike <$> entries)).
Proof. unfold side_cash. apply length_fmap. Qed.

Lemma oi_strikes_distinct (chain : list Contract) (oi : Tradier.OpenInterest) :
  Tradier.get_open_interest chain = Ok oi ->
  sorted_set (sv_strike <$> Tradier.oi_Calls oi) = distinct_strikes "call" chain /\
  sorted_set (sv_strike <$> Tradier.oi_Puts oi) = distinct_strikes "put" chain.
Proof.
  intros (-> & -> & _)%get_open_interest_Ok. unfold distinct_strikes.
  split; apply sorted_set_ext; intros k;
    by rewrite items_strikes, side_dict_strikes.
Qed.

Lemma cash_values_of_Some (oi : Tradier.OpenInterest) :
  MaxPain.cash_values_of (Some oi) =
  let cc := side_cash MaxPain.call_cash_value (Tradier.oi_Calls oi) in
  let pc := side_cash MaxPain.put_cash_value (Tradier.oi_Puts oi) in
  sums ← (if decide (length cc <= length pc)%nat
          then Ok (zip_with add_cash cc pc) else Raise IndexError);
  m ← py_min (MaxPain.cash <$> sums);
  k ← MaxPain.next_strike m sums;
  Ok (MaxPain.Data {| MaxPain.Calls := cc;
                      MaxPain.Puts := pc;
                      MaxPain.Sums := sums;
                      MaxPain.max_pain := {| MaxPain.cv_strike := k;
                                             MaxPain.cash := m |} |}).
Proof.
  unfold MaxPain.cash_values_of. cbv zeta.
  rewrite !cash_values_eq by (by rewrite !length_fmap).
  rewrite !bind_Ok, sum_cash_values_eq. done.
Qed.

Lemma next_strike_Ok (m : Z) (sums : list MaxPain.CashValue) (k : Z) :
  MaxPain.next_strike m sums = Ok k ->
  exists i e, sums !! i = Some e /\ MaxPain.cash e = m /\ MaxPain.cv_strike e = k /\
              forall j e', sums !! j = Some e' -> (j < i)%nat -> MaxPain.cash e' <> m.
Proof.
  unfold MaxPain.next_strike.
  destruct (list_find _ _) as [[i e]|] eqn:Hf; [|discriminate].
  intros [= <-]. apply list_find_Some in Hf as (Hi & He & Hj). eauto 10.
Qed.

Lemma next_strike_is_Ok (m : Z) (sums : list MaxPain.CashValue) :
  m ∈ MaxPain.cash <$> sums -> exists k, MaxPain.next_strike m sums = Ok k.
Proof.
  intros (e & -> & He)%list_elem_of_fmap. unfold MaxPain.next_strike.
  destruct (list_find_elem_of (fun e' => MaxPain.cash e' = MaxPain.cash e) sums e He eq_refl)
    as [[i e'] ->].
  eauto.
Qed.

(** What a returned dict of cash values holds. *)
Lemma get_cash_values_Data (chain : list Contract) (d : MaxPain.CashValues) :
  MaxPain.get_cash_values chain = Ok (MaxPain.Data d) ->
  exists oi,
    Tradier.get_open_interest chain = Ok oi /\
    MaxPain.Calls d = side_cash MaxPain.call_cash_value (Tradier.oi_Calls oi) /\
    MaxPain.Puts d = side_cash MaxPain.put_cash_value (Tradier.oi_Puts oi) /\
    (length (MaxPain.Calls d) <= length (MaxPain.Puts d))%nat /\
    MaxPain.Sums d = zip_with add_cash (MaxPain.Calls d) (MaxPain.Puts d) /\
    py_min (MaxPain.cash <$> MaxPain.Sums d) = Ok (MaxPain.cash (MaxPain.max_pain d)) /\
    MaxPain.next_strike (MaxPain.cash (MaxPain.max_pain d)) (MaxPain.Sums d) =
      Ok (MaxPain.cv_strike (MaxPain.max_pain d)).
Proof.
  unfold MaxPain.get_cash_values. intros (oi & Hoi & H)%bind_Ok_inv.
  rewrite cash_values_of_Some in H. cbv zeta in H.
  apply bind_Ok_inv in H as (sums & Hs & H).
  case_decide as Hlen; [|discriminate]. injection Hs as <-.
  apply bind_Ok_inv in H as (m & Hm & H).
  apply bind_Ok_inv in H as (k & Hk & H). injection H as <-.
  exists oi. cbn. split_and!; done.
Qed.

(** The calculator never takes the branch that returns the empty list. *)
Lemma get_cash_values_not_Empty (chain : list Contract) :
  MaxPain.get_cash_values chain <> Ok MaxPain.Empty.
Proof.
  unfold MaxPain.get_cash_values. intros (oi & Hoi & H)%bind_Ok_inv.
  rewrite cash_values_of_Some in H. cbv zeta in H.
  apply bind_Ok_inv in H as (sums & Hs & H).
  apply bind_Ok_inv in H as (m & Hm & H).
  apply bind_Ok_inv in H as (k & Hk & H). discriminate.
Qed.

Lemma oi_Calls_nonempty (chain : list Contract) (oi : Tradier.OpenInterest) :
  Tradier.get_open_interest chain = Ok oi -> Tradier.oi_Calls oi <> [].
Proof.
  intros (_ & _ & Htot & Hnz & _)%get_open_interest_Ok Hnil.
  rewrite Hnil in Htot. injection Htot as Htc _. by apply Hnz.
Qed.

Lemma oi_strikes_NoDup (chain : list Contract) (oi : Tradier.OpenInterest) :
  Tradier.get_open_interest chain = Ok oi ->
  NoDup (sv_strike <$> Tradier.oi_Calls oi) /\
  NoDup (sv_strike <$> Tradier.oi_Puts oi).
Proof.
  intros (-> & -> & _)%get_open_interest_Ok.
  rewrite !items_strikes. split; apply side_dict_NoDup.
Qed.

(** Once the open interest is there, the calculator either fails in the
    summation loop or returns the cash values. *)
Lemma get_cash_values_after (chain : list Contract) (oi : Tradier.OpenInterest) :
  Tradier.get_open_interest chain = Ok oi ->
  if decide (length (distinct_strikes "call" chain)
             <= length (distinct_strikes "put" chain))%nat
  then exists d, MaxPain.get_cash_values chain = Ok (MaxPain.Data d)
  else MaxPain.get_cash_values chain = Raise IndexError.
Proof.
  intros Hoi. unfold MaxPain.get_cash_values. rewrite Hoi, bind_Ok.
  rewrite cash_values_of_Some. cbv zeta. rewrite !side_cash_length.
  destruct (oi_strikes_distinct chain oi Hoi) as [-> ->].
  case_decide as Hlen; [|done]. rewrite bind_Ok.
  set (cc := side_cash MaxPain.call_cash_value _).
  set (pc := side_cash MaxPain.put_cash_value _).
  assert (zip_with add_cash cc pc <> []) as Hne.
  { intros Hnil%(f_equal length). rewrite length_zip_with in Hnil.
    unfold cc, pc in Hnil. rewrite !side_cash_length in Hnil.
    destruct (oi_strikes_distinct chain oi Hoi) as [Hc Hp].
    rewrite Hc, Hp in Hnil.
    assert (length (distinct_strikes "call" chain) = 0%nat) as Hz by (simpl in Hnil; lia).
    rewrite <- Hc in Hz.
    rewrite sorted_set_NoDup_length in Hz by apply (oi_strikes_NoDup chain oi Hoi).
    rewrite length_fmap in Hz. apply length_zero_iff_nil in Hz.
    by apply (oi_Calls_nonempty chain oi). }
  destruct (py_min_is_Ok (MaxPain.cash <$> zip_with add_cash cc pc)) as [m Hm].
  { by destruct (zip_with add_cash cc pc). }
  rewrite Hm, bind_Ok.
  destruct (next_strike_is_Ok m (zip_with add_cash cc pc)) as [k Hk].
  { by apply py_min_Ok in Hm as [Hin _]. }
  rewrite Hk, bind_Ok. eauto.
Qed.

Lemma get_open_interest_Raise (chain : list Contract) (e : exn) :
  Tradier.get_open_interest chain = Raise e -> e = ZeroDivisionError.
Proof.
  rewrite get_open_interest_eq. cbv zeta. unfold true_div.
  case_decide; [by intros [= <-]|discriminate].
Qed.

(** * The properties of the specification *)

(** ** Open interest aggregator *)

Example scenario_put_call_ratio :
  (true_div 300 150 ≫= fun ratio => Ok (Qeq_bool ratio 2)) = Ok true.
Proof. reflexivity. Qed.

(** C4, as the code has it: when the summed call open interest is not
    zero, the aggregator returns and [put_call_ratio] is
    [total_put_oi / total_call_oi]; when it is zero, the division raises
    [ZeroDivisionError] and nothing is returned. *)
Theorem put_call_ratio_or_ZeroDivisionError (chain : list Contract) :
  exists data,
    Tradier.by_type (fun c => Ok (open_interest c)) chain [] [] = Ok data /\
    let totals := Tradier.zip_totals (Tradier.items data.1) (Tradier.items data.2) in
    if decide (totals.1 = 0)
    then Tradier.get_open_interest chain = Raise ZeroDivisionError
    else exists r, Tradier.get_open_interest chain = Ok r /\
                   Tradier.total_call_oi r = totals.1 /\
                   Tradier.total_put_oi r = totals.2 /\
                   Tradier.put_call_ratio r =
                     (inject_Z (Tradier.total_put_oi r) /
                      inject_Z (Tradier.total_call_oi r))%Q.
Proof.
  eexists. split; [apply by_type_total|]. cbv zeta. cbn [fst snd].
  rewrite get_open_interest_eq. cbv zeta. unfold true_div, side_dict.
  case_decide; [done|]. rewrite bind_Ok. eauto.
Qed.

(** C4 fails as stated: with no call open interest the caller gets an
    exception, not a ratio. *)
Lemma put_call_ratio_zero_calls_raises :
  Tradier.get_open_interest no_call_oi_chain = Raise ZeroDivisionError.
Proof. reflexivity. Qed.

(** C5: the totals are the sums over the first [min(len(call_list),
    len(put_list))] entries of each list; entries past the shorter list
    add nothing. *)
Theorem totals_over_zipped_prefix (chain : list Contract) (r : Tradier.OpenInterest) :
  Tradier.get_open_interest chain = Ok r ->
  let n := min (length (Tradier.oi_Calls r)) (length (Tradier.oi_Puts r)) in
  Tradier.total_call_oi r = total (sv_value <$> take n (Tradier.oi_Calls r)) /\
  Tradier.total_put_oi r = total (sv_value <$> take n (Tradier.oi_Puts r)).
Proof.
  intros (_ & _ & Htot & _)%get_open_interest_Ok. cbv zeta.
  rewrite zip_totals_eq in Htot. by injection Htot as -> ->.
Qed.

Lemma totals_over_zipped_prefix_witness :
  exists r, Tradier.get_open_interest uneven_chain = Ok r /\
            length (Tradier.oi_Calls r) = 3%nat /\
            Tradier.total_call_oi r = total (sv_value <$> take 1 (Tradier.oi_Calls r)) /\
            Tradier.total_put_oi r = total (sv_value <$> take 1 (Tradier.oi_Puts r)).
Proof.
  eexists. split; [vm_compute; reflexivity|]. split; [reflexivity|].
  apply (totals_over_zipped_prefix uneven_chain). vm_compute. reflexivity.
Defined.

(** C7: each list of the aggregator has exactly one entry per strike of
    its side, and the entry's open interest is that of the last contract
    of the side with this strike, in provider order. *)
Theorem one_entry_per_strike_last_wins (chain : list Contract)
    (r : Tradier.OpenInterest) :
  Tradier.get_open_interest chain = Ok r ->
  forall ty l,
    ty = "call" /\ l = Tradier.oi_Calls r \/ ty = "put" /\ l = Tradier.oi_Puts r ->
    NoDup (sv_strike <$> l) /\
    (forall k, k ∈ sv_strike <$> l <-> exists c, c ∈ side ty chain /\ strike c = k) /\
    (forall e, e ∈ l ->
       exists c, list.last (filter (fun c => strike c = sv_strike e) (side ty chain))
                 = Some c /\
                 sv_value e = open_interest c).
Proof.
  intros (Hc & Hp & _)%get_open_interest_Ok ty l Hl.
  assert (l = Tradier.items (side_dict open_interest ty chain)) as ->
    by (destruct Hl as [[-> ->]|[-> ->]]; done).
  clear. split_and!.
  - rewrite items_strikes. apply side_dict_NoDup.
  - intros k. rewrite items_strikes, side_dict_strikes, list_elem_of_fmap.
    naive_solver.
  - intros [k v] (kv & [= -> ->] & Hkv)%list_elem_of_fmap. cbn.
    destruct kv as [k v]. by apply side_dict_last in Hkv.
Qed.

Lemma one_entry_per_strike_last_wins_witness :
  exists r, Tradier.get_open_interest repeated_chain = Ok r /\
            Tradier.oi_Calls r = [{| sv_strike := 100; sv_value := 4 |}] /\
            NoDup (sv_strike <$> Tradier.oi_Calls r).
Proof.
  eexists. split; [vm_compute; reflexivity|]. split; [reflexivity|].
  eapply (one_entry_per_strike_last_wins repeated_chain);
    [vm_compute; reflexivity|left; split; reflexivity].
Defined.

(** C9: in a chain of calls and puts with no repeated (strike,
    option_type) pair, the call list and the put list of the aggregator,
    taken together, hold each contract of the chain once: its strike, its
    option type and its open interest. *)
Theorem partition_recombines (chain : list Contract) :
  NoDup ((fun c => (strike c, option_type c)) <$> chain) ->
  Forall (fun c => option_type c = "call" \/ option_type c = "put") chain ->
  exists data,
    Tradier.by_type (fun c => Ok (open_interest c)) chain [] [] = Ok data /\
    Tradier.items data.1 = Tradier.items (strike_with open_interest <$> side "call" chain) /\
    Tradier.items data.2 = Tradier.items (strike_with open_interest <$> side "put" chain) /\
    (tagged "call" <$> Tradier.items data.1) ++ (tagged "put" <$> Tradier.items data.2)
      ≡ₚ oi_view <$> chain.
Proof.
  intros Hnd Hty. eexists. split; [apply by_type_total|]. cbn [fst snd].
  fold (side_dict open_interest "call" chain).
  fold (side_dict open_interest "put" chain).
  rewrite !side_dict_unique by (by apply side_strikes_NoDup).
  split_and!; [done..|].
  by rewrite !tagged_side, <- fmap_app, sides_Permutation.
Qed.

Lemma partition_recombines_witness :
  exists data,
    Tradier.by_type (fun c => Ok (open_interest c)) scenario_chain [] [] = Ok data /\
    (tagged "call" <$> Tradier.items data.1) ++ (tagged "put" <$> Tradier.items data.2)
      ≡ₚ oi_view <$> scenario_chain.
Proof.
  destruct (partition_recombines scenario_chain) as (data & Hdata & _ & _ & Hperm).
  - decide_closed.
  - decide_closed.
  - exists data. split; assumption.
Defined.

(** ** Max pain calculator *)

Lemma add_cash_strikes (cc pc : list MaxPain.CashValue) :
  (length cc <= length pc)%nat ->
  MaxPain.cv_strike <$> zip_with add_cash cc pc = MaxPain.cv_strike <$> cc.
Proof.
  revert pc. induction cc as [|c cc IH]; intros [|p pc] Hlen; simpl in *;
    [done|done|lia|].
  cbn. f_equal. apply IH. lia.
Qed.

Lemma cash_value_nonneg (close k oi : Z) :
  0 <= MaxPain.call_cash_value close k oi /\ 0 <= MaxPain.put_cash_value close k oi.
Proof.
  unfold MaxPain.call_cash_value, MaxPain.put_cash_value.
  split; case_decide; lia.
Qed.

Lemma cash_at_nonneg (f : Z -> Z -> Z -> Z) (ks ois : list Z) (close : Z) :
  (forall k oi, 0 <= f close k oi) -> 0 <= cash_at f ks ois close.
Proof.
  intros Hf. unfold cash_at. apply total_nonneg.
  revert ois. induction ks as [|k ks IH]; intros [|oi ois]; simpl;
    constructor; [apply Hf|apply IH].
Qed.

Lemma side_cash_nonneg (f : Z -> Z -> Z -> Z) (entries : list (StrikeValue Z)) :
  (forall close k oi, 0 <= f close k oi) ->
  Forall (fun e => 0 <= MaxPain.cash e) (side_cash f entries).
Proof.
  intros Hf. unfold side_cash. apply Forall_fmap, Forall_true.
  intros close. cbn. by apply cash_at_nonneg.
Qed.

(** C1: when the calculator returns cash values, [Sums] is not empty and
    [max_pain] is its first entry of least cash: no entry has less cash,
    and every entry with the same cash comes later and has a higher or
    equal strike. *)
Theorem max_pain_is_first_minimum (chain : list Contract) (d : MaxPain.CashValues) :
  MaxPain.get_cash_values chain = Ok (MaxPain.Data d) ->
  MaxPain.Sums d <> [] /\
  exists i,
    MaxPain.Sums d !! i = Some (MaxPain.max_pain d) /\
    (forall e, e ∈ MaxPain.Sums d ->
       MaxPain.cash (MaxPain.max_pain d) <= MaxPain.cash e) /\
    (forall j e, MaxPain.Sums d !! j = Some e ->
       MaxPain.cash e = MaxPain.cash (MaxPain.max_pain d) ->
       (i <= j)%nat /\
       MaxPain.cv_strike (MaxPain.max_pain d) <= MaxPain.cv_strike e).
Proof.
  intros (oi & Hoi & Hcc & Hpc & Hlen & Hsums & Hmin & Hnext)%get_cash_values_Data.
  apply py_min_Ok in Hmin as [_ Hmin].
  apply next_strike_Ok in Hnext as (i & e & Hi & Hcash & Hstrike & Hfirst).
  assert (e = MaxPain.max_pain d) as ->.
  { destruct e, (MaxPain.max_pain d). simpl in *. congruence. }
  split; [intros Hnil; by rewrite Hnil in Hi|].
  exists i. split_and!; [done| |].
  - intros e He. apply Hmin. by apply list_elem_of_fmap_2.
  - intros j e Hj He.
    assert (i <= j)%nat as Hij.
    { destruct (decide (i <= j)%nat) as [|Hlt]; [done|].
      exfalso. apply (Hfirst j e); [done|lia|done]. }
    split; [done|].
    destruct (decide (i = j)) as [->|Hne]; [by simplify_eq|].
    assert (StronglySorted Z.lt (MaxPain.cv_strike <$> MaxPain.Sums d)) as Hsorted.
    { rewrite Hsums, add_cash_strikes, Hcc, side_cash_strikes by done.
      apply sorted_set_sorted. }
    apply Z.lt_le_incl.
    apply (StronglySorted_lookup_lt Z.lt _ i j _ _ Hsorted);
      [by rewrite list_lookup_fmap, Hi|by rewrite list_lookup_fmap, Hj|lia].
Qed.

Lemma max_pain_is_first_minimum_witness :
  exists d, MaxPain.get_cash_values tied_chain = Ok (MaxPain.Data d) /\
            MaxPain.cash <$> MaxPain.Sums d = [500; 500] /\
            MaxPain.cv_strike (MaxPain.max_pain d) = 100 /\
            MaxPain.Sums d <> [].
Proof.
  eexists. split; [vm_compute; reflexivity|]. split; [reflexivity|].
  split; [reflexivity|].
  eapply (max_pain_is_first_minimum tied_chain). vm_compute. reflexivity.
Defined.

(** C3: in a chain without negative open interest, the payoff of every
    contract at every close is at least 0, and so is every entry of the
    call and put cash lists. *)
Theorem payoffs_nonneg (chain : list Contract) (d : MaxPain.CashValues) :
  Forall (fun c => 0 <= open_interest c) chain ->
  MaxPain.get_cash_values chain = Ok (MaxPain.Data d) ->
  (forall c close, c ∈ chain ->
     0 <= MaxPain.call_cash_value close (strike c) (open_interest c) /\
     0 <= MaxPain.put_cash_value close (strike c) (open_interest c)) /\
  Forall (fun e => 0 <= MaxPain.cash e) (MaxPain.Calls d) /\
  Forall (fun e => 0 <= MaxPain.cash e) (MaxPain.Puts d).
Proof.
  intros _ (oi & _ & -> & -> & _)%get_cash_values_Data. split_and!.
  - intros c close _. apply cash_value_nonneg.
  - apply side_cash_nonneg. intros. apply cash_value_nonneg.
  - apply side_cash_nonneg. intros. apply cash_value_nonneg.
Qed.

Lemma payoffs_nonneg_witness :
  exists d, MaxPain.get_cash_values scenario_chain = Ok (MaxPain.Data d) /\
            Forall (fun e => 0 <= MaxPain.cash e) (MaxPain.Calls d) /\
            Forall (fun e => 0 <= MaxPain.cash e) (MaxPain.Puts d).
Proof.
  eexists. split; [vm_compute; reflexivity|].
  eapply (payoffs_nonneg scenario_chain); [decide_closed|vm_compute; reflexivity].
Defined.

(** C6: when the two sides have as many distinct strikes, the i-th entry
    of [Sums] has the strike of the i-th call entry and the cash of the
    i-th call entry plus that of the i-th put entry, whatever the strike
    of the put entry. *)
Theorem sums_are_positional (chain : list Contract) (d : MaxPain.CashValues) :
  length (distinct_strikes "call" chain) = length (distinct_strikes "put" chain) ->
  MaxPain.get_cash_values chain = Ok (MaxPain.Data d) ->
  MaxPain.cv_strike <$> MaxPain.Calls d = distinct_strikes "call" chain /\
  MaxPain.cv_strike <$> MaxPain.Puts d = distinct_strikes "put" chain /\
  length (MaxPain.Sums d) = length (MaxPain.Calls d) /\
  forall i c p,
    MaxPain.Calls d !! i = Some c -> MaxPain.Puts d !! i = Some p ->
    MaxPain.Sums d !! i =
      Some {| MaxPain.cv_strike := MaxPain.cv_strike c;
              MaxPain.cash := MaxPain.cash c + MaxPain.cash p |}.
Proof.
  intros _ (oi & Hoi & Hcc & Hpc & Hlen & Hsums & _)%get_cash_values_Data.
  destruct (oi_strikes_distinct chain oi Hoi) as [Hc Hp]. split_and!.
  - by rewrite Hcc, side_cash_strikes.
  - by rewrite Hpc, side_cash_strikes.
  - rewrite Hsums, length_zip_with. lia.
  - intros i c p Hi Hj. rewrite Hsums, lookup_zip_with, Hi, Hj. done.
Qed.

Lemma sums_are_positional_witness :
  exists d, MaxPain.get_cash_values shifted_chain = Ok (MaxPain.Data d) /\
            MaxPain.cv_strike <$> MaxPain.Calls d = [100; 105] /\
            MaxPain.cv_strike <$> MaxPain.Puts d = [95; 100] /\
            MaxPain.cv_strike <$> MaxPain.Calls d = distinct_strikes "call" shifted_chain.
Proof.
  eexists. split; [vm_compute; reflexivity|]. split; [reflexivity|].
  split; [reflexivity|].
  eapply (sums_are_positional shifted_chain); vm_compute; reflexivity.
Defined.



(** ** Order of the strike lists *)

Lemma first_occurrences_order {V : Type} (ty : string) (chain : list Contract)
    (l : list (StrikeValue V)) :
  sv_strike <$> l = first_occurrences (strike <$> side ty chain) ->
  distinct_in_provider_order ty chain l.
Proof.
  intros Hl. unfold distinct_in_provider_order. rewrite Hl.
  split_and!; [done| |apply add_keys_nil_sorted].
  apply add_keys_NoDup, NoDup_nil_2.
Qed.

Lemma by_type_order {V : Type} (field : Contract -> result V)
    (chain : list Contract) (data : dict V * dict V) :
  Tradier.by_type field chain [] [] = Ok data ->
  distinct_in_provider_order "call" chain (Tradier.items data.1) /\
  distinct_in_provider_order "put" chain (Tradier.items data.2).
Proof.
  intros [Hc Hp]%by_type_keys.
  split; apply first_occurrences_order; by rewrite items_strikes.
Qed.

Lemma greeks_by_type_eq (chain : list Contract)
    (cg pg : list (StrikeValue (option Greeks))) :
  Tradier.greeks_by_type chain cg pg =
  (cg ++ (greeks_entry <$> side "call" chain),
   pg ++ (greeks_entry <$> side "put" chain)).
Proof.
  revert cg pg. induction chain as [|c chain IH]; intros cg pg.
  { cbn. by rewrite !app_nil_r. }
  cbn [Tradier.greeks_by_type]. cbv zeta. rewrite !side_cons, !IH.
  destruct (String.eqb_spec (option_type c) "call") as [Hc|Hc].
  - rewrite decide_True by done. rewrite decide_False by (by rewrite Hc).
    by rewrite fmap_cons, <- app_assoc.
  - rewrite (decide_False (P := option_type c = "call")) by done.
    destruct (String.eqb_spec (option_type c) "put") as [Hp|Hp].
    + rewrite decide_True by done. by rewrite fmap_cons, <- app_assoc.
    + by rewrite decide_False by done.
Qed.

Lemma greeks_entry_strikes (cs : list Contract) :
  sv_strike <$> (greeks_entry <$> cs) = strike <$> cs.
Proof. by rewrite <- list_fmap_compose. Qed.

(** C8, as the code has it: the lists of the open interest aggregator and
    of the volume, implied volatility and last/bid/ask extractors hold
    each strike of their side once, in provider order of first
    occurrence, so they ascend when the provider's strikes do;
    [_get_greeks] keeps one entry per contract in provider order; the
    cash lists of the max pain calculator ascend strictly by strike. *)
Theorem strike_lists_order (chain : list Contract) :
  (forall r, Tradier.get_open_interest chain = Ok r ->
     distinct_in_provider_order "call" chain (Tradier.oi_Calls r) /\
     distinct_in_provider_order "put" chain (Tradier.oi_Puts r)) /\
  (forall r, Tradier._get_volume chain = Ok r ->
     distinct_in_provider_order "call" chain (Tradier.Calls r) /\
     distinct_in_provider_order "put" chain (Tradier.Puts r)) /\
  (forall r, Tradier._get_implied_volatility chain = Ok (Some r) ->
     distinct_in_provider_order "call" chain (Tradier.Calls r) /\
     distinct_in_provider_order "put" chain (Tradier.Puts r)) /\
  (forall r, Tradier._get_last_bid_ask chain = Ok r ->
     distinct_in_provider_order "call" chain (Tradier.Calls r) /\
     distinct_in_provider_order "put" chain (Tradier.Puts r)) /\
  (forall r, Tradier._get_greeks chain = Ok r ->
     sv_strike <$> Tradier.Calls r = strike <$> side "call" chain /\
     sv_strike <$> Tradier.Puts r = strike <$> side "put" chain) /\
  (forall d, MaxPain.get_cash_values chain = Ok (MaxPain.Data d) ->
     Sorted Z.lt (MaxPain.cv_strike <$> MaxPain.Calls d) /\
     Sorted Z.lt (MaxPain.cv_strike <$> MaxPain.Puts d) /\
     Sorted Z.lt (MaxPain.cv_strike <$> MaxPain.Sums d)).
Proof.
  split_and!.
  - unfold Tradier.get_open_interest.
    intros r (data & Hdata & Hr)%bind_Ok_inv.
    apply bind_Ok_inv in Hr as (ratio & _ & [= <-]). cbn.
    by apply by_type_order in Hdata.
  - unfold Tradier._get_volume.
    intros r (data & Hdata & [= <-])%bind_Ok_inv. cbn.
    by apply by_type_order in Hdata.
  - unfold Tradier._get_implied_volatility. intros r.
    destruct (Tradier.by_type _ _ _ _) as [data|e] eqn:Hdata; [|discriminate].
    intros [= <-]. cbn. by apply by_type_order in Hdata.
  - unfold Tradier._get_last_bid_ask.
    intros r (data & Hdata & [= <-])%bind_Ok_inv. cbn.
    by apply by_type_order in Hdata.
  - unfold Tradier._get_greeks. rewrite greeks_by_type_eq.
    intros r [= <-]. cbn. by rewrite !greeks_entry_strikes.
  - intros d (oi & Hoi & Hcc & Hpc & Hlen & Hsums & _)%get_cash_values_Data.
    rewrite Hsums, add_cash_strikes, Hcc, Hpc, !side_cash_strikes by done.
    split_and!; apply StronglySorted_Sorted, sorted_set_sorted.
Qed.

Lemma strike_lists_order_witness :
  (exists r, Tradier.get_open_interest scenario_chain = Ok r /\
             Sorted Z.lt (sv_strike <$> Tradier.oi_Calls r) /\
             NoDup (sv_strike <$> Tradier.oi_Puts r)) /\
  (exists r, Tradier._get_volume quoted_chain = Ok r /\
             NoDup (sv_strike <$> Tradier.Calls r)) /\
  (exists r, Tradier._get_implied_volatility quoted_chain = Ok (Some r) /\
             NoDup (sv_strike <$> Tradier.Calls r)) /\
  (exists r, Tradier._get_last_bid_ask quoted_chain = Ok r /\
             NoDup (sv_strike <$> Tradier.Puts r)) /\
  (exists r, Tradier._get_greeks quoted_chain = Ok r /\
             sv_strike <$> Tradier.Calls r = strike <$> side "call" quoted_chain) /\
  (exists d, MaxPain.get_cash_values scenario_chain = Ok (MaxPain.Data d) /\
             Sorted Z.lt (MaxPain.cv_strike <$> MaxPain.Sums d)).
Proof.
  destruct (strike_lists_order scenario_chain) as (Hoi & _ & _ & _ & _ & Hcash).
  destruct (strike_lists_order quoted_chain) as (_ & Hvol & Hiv & Hlba & Hgreeks & _).
  split_and!; eexists; (split; [vm_compute; reflexivity|]).
  - edestruct Hoi as [(_ & _ & Hcalls) (_ & Hputs & _)]; [vm_compute; reflexivity|].
    split; [apply Hcalls; decide_closed|exact Hputs].
  - edestruct Hvol as [(_ & Hcalls & _) _]; [vm_compute; reflexivity|exact Hcalls].
  - edestruct Hiv as [(_ & Hcalls & _) _]; [vm_compute; reflexivity|exact Hcalls].
  - edestruct Hlba as [_ (_ & Hputs & _)]; [vm_compute; reflexivity|exact Hputs].
  - edestruct Hgreeks as [Hcalls _]; [vm_compute; reflexivity|exact Hcalls].
  - edestruct Hcash as (_ & _ & Hsums); [vm_compute; reflexivity|exact Hsums].
Defined.

(** C8 fails as stated: the aggregator keeps the provider's order. *)
Lemma aggregator_keeps_provider_order :
  exists r, Tradier.get_open_interest unsorted_chain = Ok r /\
            sv_strike <$> Tradier.oi_Calls r = [105; 100] /\
            ~ Sorted Z.lt (sv_strike <$> Tradier.oi_Calls r).
Proof.
  eexists. split; [vm_compute; reflexivity|]. split; [reflexivity|].
  cbn. intros Hs. apply Sorted_inv in Hs as [_ Hhd].
  apply HdRel_inv in Hhd. lia.
Qed.

Example greeks_keep_repeated_strikes :
  Tradier._get_greeks repeated_greeks_chain =
  Ok {| Tradier.Calls := [{| sv_strike := 100; sv_value := None |};
                          {| sv_strike := 100; sv_value := None |}];
        Tradier.Puts := [] |}.
Proof. reflexivity. Qed.

(** ** The empty chain *)

(** C2 at the empty chain: the extractors return empty lists, the open
    interest aggregator divides 0 by 0, and the max pain calculator, which
    calls it, raises with it. *)
Theorem empty_chain_results :
  Tradier.get_open_interest [] = Raise ZeroDivisionError /\
  MaxPain.get_cash_values [] = Raise ZeroDivisionError /\
  MaxPain.cash_values_of None = Ok MaxPain.Empty /\
  Tradier._get_volume [] = Ok {| Tradier.Calls := []; Tradier.Puts := [] |} /\
  Tradier._get_implied_volatility [] =
    Ok (Some {| Tradier.Calls := []; Tradier.Puts := [] |}) /\
  Tradier._get_last_bid_ask [] = Ok {| Tradier.Calls := []; Tradier.Puts := [] |} /\
  Tradier._get_greeks [] = Ok {| Tradier.Calls := []; Tradier.Puts := [] |}.
Proof. repeat split. Qed.

(** * Further properties of the code *)

(** ** Lemmas on the cash lists *)

Lemma oi_values_nonneg (chain : list Contract) (oi : Tradier.OpenInterest) :
  Forall (fun c => 0 <= open_interest c) chain ->
  Tradier.get_open_interest chain = Ok oi ->
  Forall (fun e => 0 <= sv_value e) (Tradier.oi_Calls oi) /\
  Forall (fun e => 0 <= sv_value e) (Tradier.oi_Puts oi).
Proof.
  intros Hnn (-> & -> & _)%get_open_interest_Ok. rewrite Forall_forall in Hnn.
  split; apply Forall_forall;
    intros [k v] (kv & [= -> ->] & Hkv)%list_elem_of_fmap; destruct kv as [k v];
    apply side_dict_last in Hkv as (c & Hlast & ->); cbn; apply Hnn;
    apply last_Some_elem_of in Hlast;
    apply list_elem_of_filter in Hlast as [_ Hc];
    by apply list_elem_of_filter in Hc as [_ Hc].
Qed.

Lemma side_cash_cash (f : Z -> Z -> Z -> Z) (entries : list (StrikeValue Z)) :
  MaxPain.cash <$> side_cash f entries =
  cash_at f (sv_strike <$> entries) (sv_value <$> entries)
    <$> sorted_set (sv_strike <$> entries).
Proof.
  unfold side_cash. rewrite <- list_fmap_compose.
  induction (sorted_set _) as [|k ks IH]; [done|]. cbn. by f_equal.
Qed.

Lemma cash_at_mono (f : Z -> Z -> Z -> Z) (ks ois : list Z) (c1 c2 : Z) :
  (forall k oi, oi ∈ ois -> f c1 k oi <= f c2 k oi) ->
  cash_at f ks ois c1 <= cash_at f ks ois c2.
Proof.
  unfold cash_at, total. revert ois.
  induction ks as [|k ks IH]; intros [|oi ois] Hf; cbn; try lia.
  assert (f c1 k oi <= f c2 k oi) by (apply Hf; left).
  assert (foldr Z.add 0 (zip_with (f c1) ks ois)
          <= foldr Z.add 0 (zip_with (f c2) ks ois)).
  { apply IH. intros k' oi' Hoi'. apply Hf. by right. }
  lia.
Qed.

Lemma cash_at_zero (f : Z -> Z -> Z -> Z) (ks ois : list Z) (close : Z) :
  (forall k oi, k ∈ ks -> oi ∈ ois -> f close k oi = 0) ->
  cash_at f ks ois close = 0.
Proof.
  unfold cash_at, total. revert ois.
  induction ks as [|k ks IH]; intros [|oi ois] Hf; cbn; try done.
  rewrite Hf by left. rewrite IH; [done|].
  intros k' oi' Hk' Hoi'. apply Hf; by right.
Qed.

Lemma call_cash_value_mono (c1 c2 k oi : Z) :
  0 <= oi -> c1 <= c2 ->
  MaxPain.call_cash_value c1 k oi <= MaxPain.call_cash_value c2 k oi.
Proof. unfold MaxPain.call_cash_value. intros. repeat case_decide; nia. Qed.

Lemma put_cash_value_anti (c1 c2 k oi : Z) :
  0 <= oi -> c1 <= c2 ->
  MaxPain.put_cash_value c2 k oi <= MaxPain.put_cash_value c1 k oi.
Proof. unfold MaxPain.put_cash_value. intros. repeat case_decide; nia. Qed.

Lemma call_cash_value_below (close k oi : Z) :
  0 <= oi -> close <= k -> MaxPain.call_cash_value close k oi = 0.
Proof. unfold MaxPain.call_cash_value. intros. case_decide; nia. Qed.

Lemma put_cash_value_above (close k oi : Z) :
  0 <= oi -> k <= close -> MaxPain.put_cash_value close k oi = 0.
Proof. unfold MaxPain.put_cash_value. intros. case_decide; nia. Qed.

Lemma StronglySorted_fmap_mono {A B : Type} (R : relation A) (R' : relation B)
    (f : A -> B) (l : list A) :
  (forall x y, R x y -> R' (f x) (f y)) ->
  StronglySorted R l -> StronglySorted R' (f <$> l).
Proof.
  intros Hf. induction 1 as [|x l Hl IH Hx]; cbn; constructor; [done|].
  apply Forall_fmap. eapply Forall_impl; [exact Hx|]. intros y. apply Hf.
Qed.

(** ** Max pain calculator: outcomes and shape of the cash lists *)

(** X1: [get_cash_values] ends in one of three ways. It raises
    [ZeroDivisionError] when [get_open_interest] does; it raises
    [IndexError] when the open interest is there and the call side has
    more distinct strikes than the put side; otherwise it returns the
    dict of cash values. It never returns the empty list of its guard and
    never fails in [min] or [next]. *)
Theorem get_cash_values_outcomes (chain : list Contract) :
  match MaxPain.get_cash_values chain with
  | Ok MaxPain.Empty => False
  | Ok (MaxPain.Data d) =>
      (exists oi, Tradier.get_open_interest chain = Ok oi) /\
      (length (distinct_strikes "call" chain)
       <= length (distinct_strikes "put" chain))%nat
  | Raise e =>
      e = ZeroDivisionError /\
      Tradier.get_open_interest chain = Raise ZeroDivisionError \/
      e = IndexError /\
      (exists oi, Tradier.get_open_interest chain = Ok oi) /\
      (length (distinct_strikes "put" chain)
       < length (distinct_strikes "call" chain))%nat
  end.
Proof.
  destruct (Tradier.get_open_interest chain) as [oi|e] eqn:Hoi.
  - pose proof (get_cash_values_after chain oi Hoi) as H.
    case_decide as Hlen.
    + destruct H as [d ->]. eauto.
    + rewrite H. right. split_and!; [done|eauto|lia].
  - unfold MaxPain.get_cash_values. rewrite Hoi, bind_Raise.
    apply get_open_interest_Raise in Hoi as Heq. subst e. by left.
Qed.

Lemma get_cash_values_outcomes_witness :
  MaxPain.get_cash_values [] = Raise ZeroDivisionError /\
  MaxPain.get_cash_values uneven_chain = Raise IndexError /\
  exists d, MaxPain.get_cash_values scenario_chain = Ok (MaxPain.Data d).
Proof.
  pose proof (get_cash_values_outcomes []) as H1.
  pose proof (get_cash_values_outcomes uneven_chain) as H2.
  pose proof (get_cash_values_outcomes scenario_chain) as H3.
  split_and!.
  - destruct (MaxPain.get_cash_values []) as [[|d]|e]; [done| |].
    + destruct H1 as [[oi Hoi] _]. vm_compute in Hoi. discriminate.
    + destruct H1 as [[-> _]|(_ & [oi Hoi] & _)]; [done|].
      vm_compute in Hoi. discriminate.
  - destruct (MaxPain.get_cash_values uneven_chain) as [[|d]|e]; [done| |].
    + destruct H2 as [_ Hle]. vm_compute in Hle. lia.
    + destruct H2 as [[_ Hoi]|(-> & _)]; [|done].
      vm_compute in Hoi. discriminate.
  - destruct (MaxPain.get_cash_values scenario_chain) as [[|d]|e]; [done|eauto|].
    destruct H3 as [[_ Hoi]|(_ & _ & Hlt)].
    + vm_compute in Hoi. discriminate.
    + vm_compute in Hlt. lia.
Defined.

(** X2: with no negative open interest, the call cash list never falls
    and the put cash list never rises along the ascending strikes. *)
Theorem cash_lists_monotone (chain : list Contract) (d : MaxPain.CashValues) :
  Forall (fun c => 0 <= open_interest c) chain ->
  MaxPain.get_cash_values chain = Ok (MaxPain.Data d) ->
  Sorted Z.le (MaxPain.cash <$> MaxPain.Calls d) /\
  Sorted Z.ge (MaxPain.cash <$> MaxPain.Puts d).
Proof.
  intros Hnn (oi & Hoi & -> & -> & _)%get_cash_values_Data.
  destruct (oi_values_nonneg chain oi Hnn Hoi) as [Hc Hp].
  rewrite Forall_forall in Hc, Hp. rewrite !side_cash_cash.
  split; apply StronglySorted_Sorted;
    (eapply StronglySorted_fmap_mono; [|apply sorted_set_sorted]);
    intros c1 c2 Hlt.
  - apply cash_at_mono. intros k v (e & -> & He)%list_elem_of_fmap.
    apply call_cash_value_mono; [by apply Hc|lia].
  - apply Z.le_ge, cash_at_mono. intros k v (e & -> & He)%list_elem_of_fmap.
    apply put_cash_value_anti; [by apply Hp|lia].
Qed.

Lemma cash_lists_monotone_witness :
  exists d, MaxPain.get_cash_values scenario_chain = Ok (MaxPain.Data d) /\
            MaxPain.cash <$> MaxPain.Calls d = [0; 5000] /\
            MaxPain.cash <$> MaxPain.Puts d = [6000; 0] /\
            Sorted Z.le (MaxPain.cash <$> MaxPain.Calls d).
Proof.
  eexists. split; [vm_compute; reflexivity|].
  split; [reflexivity|]. split; [reflexivity|].
  eapply (cash_lists_monotone scenario_chain); [decide_closed|vm_compute; reflexivity].
Defined.

(** X3: with no negative open interest, the call cash at the lowest call
    strike is 0 and the put cash at the highest put strike is 0. *)
Theorem cash_lists_ends (chain : list Contract) (d : MaxPain.CashValues) :
  Forall (fun c => 0 <= open_interest c) chain ->
  MaxPain.get_cash_values chain = Ok (MaxPain.Data d) ->
  (forall e, head (MaxPain.Calls d) = Some e -> MaxPain.cash e = 0) /\
  (forall e, list.last (MaxPain.Puts d) = Some e -> MaxPain.cash e = 0).
Proof.
  intros Hnn (oi & Hoi & -> & -> & _)%get_cash_values_Data.
  destruct (oi_values_nonneg chain oi Hnn Hoi) as [Hc Hp].
  rewrite Forall_forall in Hc, Hp. unfold side_cash. split; intros e He.
  - pose proof (sorted_set_sorted (sv_strike <$> Tradier.oi_Calls oi)) as Hs.
    pose proof (elem_of_sorted_set (sv_strike <$> Tradier.oi_Calls oi)) as Hin.
    destruct (sorted_set _) as [|x l]; [discriminate|].
    injection He as <-. cbn. apply cash_at_zero.
    intros k v Hk (e & -> & He)%list_elem_of_fmap.
    apply call_cash_value_below; [by apply Hc|].
    apply StronglySorted_cons in Hs as [Hx _]. rewrite Forall_forall in Hx.
    apply Hin, elem_of_cons in Hk as [->|Hk]; [done|].
    apply Z.lt_le_incl. by apply Hx.
  - pose proof (sorted_set_sorted (sv_strike <$> Tradier.oi_Puts oi)) as Hs.
    pose proof (elem_of_sorted_set (sv_strike <$> Tradier.oi_Puts oi)) as Hin.
    rewrite fmap_last in He.
    destruct (list.last (sorted_set _)) as [x|] eqn:Hlast; [|discriminate].
    injection He as <-. cbn. apply cash_at_zero.
    intros k v Hk (e & -> & He)%list_elem_of_fmap.
    apply put_cash_value_above; [by apply Hp|].
    apply last_Some in Hlast as [l Hl]. rewrite Hl in Hs, Hin.
    apply Hin, elem_of_app in Hk as [Hk|Hk%list_elem_of_singleton]; [|by subst].
    apply Z.lt_le_incl.
    apply (StronglySorted_app_1_elem_of _ _ _ _ _ Hs); [done|left].
Qed.

Lemma cash_lists_ends_witness :
  exists d, MaxPain.get_cash_values shifted_chain = Ok (MaxPain.Data d) /\
            forall e, head (MaxPain.Calls d) = Some e -> MaxPain.cash e = 0.
Proof.
  eexists. split; [vm_compute; reflexivity|].
  eapply (cash_lists_ends shifted_chain); [decide_closed|vm_compute; reflexivity].
Defined.

(** X4: the strikes of [Sums] are the distinct call strikes, whatever the
    put strikes are, so the max pain strike is a strike of a call of
    the chain; its cash is not negative. *)
Theorem max_pain_strike_is_call_strike (chain : list Contract)
    (d : MaxPain.CashValues) :
  MaxPain.get_cash_values chain = Ok (MaxPain.Data d) ->
  MaxPain.cv_strike <$> MaxPain.Sums d = distinct_strikes "call" chain /\
  MaxPain.cv_strike (MaxPain.max_pain d) ∈ strike <$> side "call" chain /\
  0 <= MaxPain.cash (MaxPain.max_pain d).
Proof.
  intros (oi & Hoi & Hcc & Hpc & Hlen & Hsums & Hmin & Hnext)%get_cash_values_Data.
  destruct (oi_strikes_distinct chain oi Hoi) as [Hc _].
  assert (MaxPain.cv_strike <$> MaxPain.Sums d = distinct_strikes "call" chain)
    as Hstrikes by (by rewrite Hsums, add_cash_strikes, Hcc, side_cash_strikes).
  apply next_strike_Ok in Hnext as (i & e & Hi & Hcash & Hstrike & _).
  split_and!; [done| |].
  - apply (elem_of_sorted_set (strike <$> side "call" chain)).
    fold (distinct_strikes "call" chain). rewrite <- Hstrikes, <- Hstrike.
    apply list_elem_of_fmap_2. by apply list_elem_of_lookup_2 with i.
  - rewrite <- Hcash. rewrite Hsums in Hi.
    apply lookup_zip_with_Some in Hi as (c & p & -> & Hci & Hpi). cbn.
    assert (0 <= MaxPain.cash c) as Hcn.
    { pose proof (side_cash_nonneg MaxPain.call_cash_value (Tradier.oi_Calls oi)) as Hall.
      rewrite <- Hcc, Forall_forall in Hall.
      apply Hall; [intros; apply cash_value_nonneg|by apply list_elem_of_lookup_2 with i]. }
    assert (0 <= MaxPain.cash p) as Hpn.
    { pose proof (side_cash_nonneg MaxPain.put_cash_value (Tradier.oi_Puts oi)) as Hall.
      rewrite <- Hpc, Forall_forall in Hall.
      apply Hall; [intros; apply cash_value_nonneg|by apply list_elem_of_lookup_2 with i]. }
    lia.
Qed.

Lemma max_pain_strike_is_call_strike_witness :
  exists d, MaxPain.get_cash_values shifted_chain = Ok (MaxPain.Data d) /\
            MaxPain.cv_strike <$> MaxPain.Puts d = [95; 100] /\
            MaxPain.cv_strike <$> MaxPain.Sums d = distinct_strikes "call" shifted_chain.
Proof.
  eexists. split; [vm_compute; reflexivity|]. split; [reflexivity|].
  eapply (max_pain_strike_is_call_strike shifted_chain). vm_compute. reflexivity.
Defined.

(** ** Open interest aggregator: one-sided chains and totals *)

Lemma side_dict_nil {V : Type} (g : Contract -> V) (ty : string)
    (chain : list Contract) :
  side ty chain = [] -> side_dict g ty chain = [].
Proof. intros Hside. unfold side_dict. by rewrite Hside. Qed.

(** X5: a chain without calls or without puts makes [get_open_interest]
    raise [ZeroDivisionError], whatever its open interest: the zip of the
    two lists is empty and the call total stays 0. [get_cash_values]
    raises with it. *)
Theorem one_sided_chain_raises (chain : list Contract) :
  side "call" chain = [] \/ side "put" chain = [] ->
  Tradier.get_open_interest chain = Raise ZeroDivisionError /\
  MaxPain.get_cash_values chain = Raise ZeroDivisionError.
Proof.
  intros Hside.
  assert (Tradier.get_open_interest chain = Raise ZeroDivisionError) as Hoi.
  { rewrite get_open_interest_eq. cbv zeta. rewrite zip_totals_eq, !items_length.
    destruct Hside as [Hside|Hside];
      rewrite (side_dict_nil open_interest _ chain Hside); cbn [length];
      rewrite ?Nat.min_0_r, ?Nat.min_0_l, !take_0; done. }
  split; [done|]. unfold MaxPain.get_cash_values. by rewrite Hoi.
Qed.

Lemma one_sided_chain_raises_witness :
  Tradier.get_open_interest calls_only_chain = Raise ZeroDivisionError /\
  MaxPain.get_cash_values calls_only_chain = Raise ZeroDivisionError.
Proof. apply one_sided_chain_raises. right. reflexivity. Defined.

Lemma items_strike_with_values {V : Type} (g : Contract -> V) (cs : list Contract) :
  sv_value <$> Tradier.items (strike_with g <$> cs) = g <$> cs.
Proof. unfold Tradier.items. by rewrite <- !list_fmap_compose. Qed.

(** X6: in a chain without repeated (strike, option_type) pairs whose
    two sides have as many contracts, nothing is dropped: the totals are
    the sums of the open interest over all calls and over all puts. *)
Theorem totals_of_equal_sides (chain : list Contract) (oi : Tradier.OpenInterest) :
  NoDup ((fun c => (strike c, option_type c)) <$> chain) ->
  length (side "call" chain) = length (side "put" chain) ->
  Tradier.get_open_interest chain = Ok oi ->
  Tradier.total_call_oi oi = total (open_interest <$> side "call" chain) /\
  Tradier.total_put_oi oi = total (open_interest <$> side "put" chain).
Proof.
  intros Hnd Hlen (Hc & Hp & Htot & _)%get_open_interest_Ok.
  rewrite zip_totals_eq, Hc, Hp in Htot.
  rewrite !side_dict_unique in Htot by (by apply side_strikes_NoDup).
  rewrite !items_length, !length_fmap, <- Hlen, Nat.min_id in Htot.
  rewrite take_ge in Htot by (by rewrite items_length, length_fmap).
  rewrite take_ge in Htot by (by rewrite items_length, length_fmap, Hlen).
  rewrite !items_strike_with_values in Htot. by injection Htot as -> ->.
Qed.

Lemma totals_of_equal_sides_witness :
  exists oi, Tradier.get_open_interest scenario_chain = Ok oi /\
             Tradier.total_call_oi oi = 15 /\ Tradier.total_put_oi oi = 20 /\
             Tradier.total_call_oi oi = total (open_interest <$> side "call" scenario_chain).
Proof.
  eexists. split; [vm_compute; reflexivity|].
  split; [reflexivity|]. split; [reflexivity|].
  eapply (totals_of_equal_sides scenario_chain);
    [decide_closed|reflexivity|vm_compute; reflexivity].
Defined.

(** X7: with no negative open interest, a returned result has a positive
    call total, a put total that is not negative and a put/call ratio
    that is not negative. *)
Theorem totals_and_ratio_nonneg (chain : list Contract) (oi : Tradier.OpenInterest) :
  Forall (fun c => 0 <= open_interest c) chain ->
  Tradier.get_open_interest chain = Ok oi ->
  0 < Tradier.total_call_oi oi /\
  0 <= Tradier.total_put_oi oi /\
  (0 <= Tradier.put_call_ratio oi)%Q.
Proof.
  intros Hnn Hoi. destruct (oi_values_nonneg chain oi Hnn Hoi) as [Hc Hp].
  apply get_open_interest_Ok in Hoi as (_ & _ & Htot & Hnz & ->).
  rewrite zip_totals_eq in Htot. injection Htot as Htc Htp.
  assert (0 <= Tradier.total_call_oi oi) as Hc0.
  { rewrite Htc. apply total_nonneg, Forall_fmap. by apply Forall_take. }
  assert (0 <= Tradier.total_put_oi oi) as Hp0.
  { rewrite Htp. apply total_nonneg, Forall_fmap. by apply Forall_take. }
  split_and!; [lia|done|].
  apply Qle_shift_div_l.
  - change 0%Q with (inject_Z 0). rewrite <- Zlt_Qlt. lia.
  - rewrite Qmult_0_l. change 0%Q with (inject_Z 0). by rewrite <- Zle_Qle.
Qed.

Lemma totals_and_ratio_nonneg_witness :
  exists oi, Tradier.get_open_interest uneven_chain = Ok oi /\
             0 < Tradier.total_call_oi oi /\
             (0 <= Tradier.put_call_ratio oi)%Q.
Proof.
  eexists. split; [vm_compute; reflexivity|].
  edestruct (totals_and_ratio_nonneg uneven_chain) as (Hc & _ & Hr);
    [decide_closed|vm_compute; reflexivity|].
  split; [exact Hc|exact Hr].
Defined.

(** ** Extractors: when the loop raises *)

Lemma by_type_is_Ok {V : Type} (field : Contract -> result V)
    (chain : list Contract) (cd pd : dict V) :
  (exists data, Tradier.by_type field chain cd pd = Ok data) <->
  Forall (fun c => typed c -> exists v, field c = Ok v) chain.
Proof.
  revert cd pd. induction chain as [|c chain IH]; intros cd pd.
  { split; [constructor|cbn; eauto]. }
  cbn [Tradier.by_type]. rewrite Forall_cons. unfold typed at 1.
  destruct (String.eqb_spec (option_type c) "call") as [Hc|Hc].
  - destruct (field c) as [v|e]; [rewrite bind_Ok, IH|rewrite bind_Raise].
    + naive_solver.
    + split; [by intros [? ?]|]. intros [[v Hv] _]; [by left|discriminate].
  - destruct (String.eqb_spec (option_type c) "put") as [Hp|Hp].
    + destruct (field c) as [v|e]; [rewrite bind_Ok, IH|rewrite bind_Raise].
      * naive_solver.
      * split; [by intros [? ?]|]. intros [[v Hv] _]; [by right|discriminate].
    + rewrite IH. naive_solver.
Qed.

Lemma by_type_is_Raise {V : Type} (field : Contract -> result V)
    (chain : list Contract) (cd pd : dict V) :
  (exists e, Tradier.by_type field chain cd pd = Raise e) <->
  Exists (fun c => typed c /\ exists e, field c = Raise e) chain.
Proof.
  revert cd pd. induction chain as [|c chain IH]; intros cd pd.
  { split; [by intros [? ?]|by intros ?%Exists_nil]. }
  cbn [Tradier.by_type]. rewrite Exists_cons. unfold typed at 1.
  destruct (String.eqb_spec (option_type c) "call") as [Hc|Hc].
  - destruct (field c) as [v|e]; [rewrite bind_Ok, IH|rewrite bind_Raise].
    + naive_solver.
    + split; [|eauto]. intros _. left. split; [by left|eauto].
  - destruct (String.eqb_spec (option_type c) "put") as [Hp|Hp].
    + destruct (field c) as [v|e]; [rewrite bind_Ok, IH|rewrite bind_Raise].
      * naive_solver.
      * split; [|eauto]. intros _. left. split; [by right|eauto].
    + rewrite IH. naive_solver.
Qed.

Lemma greeks_mid_iv_Ok (c : Contract) :
  (exists v, Tradier.greeks_mid_iv c = Ok v) <-> is_Some (greeks c).
Proof.
  unfold Tradier.greeks_mid_iv. destruct (greeks c) as [g|].
  - split; eauto.
  - split; [by intros [? ?]|by intros [? ?]].
Qed.

Lemma greeks_mid_iv_Raise (c : Contract) :
  (exists e, Tradier.greeks_mid_iv c = Raise e) <-> greeks c = None.
Proof.
  unfold Tradier.greeks_mid_iv. destruct (greeks c) as [g|].
  - split; [by intros [? ?]|done].
  - split; eauto.
Qed.

Lemma implied_volatility_None_iff (chain : list Contract) :
  Exists (fun c => typed c /\ greeks c = None) chain <->
  Tradier._get_implied_volatility chain = Ok None.
Proof.
  unfold Tradier._get_implied_volatility.
  assert (Exists (fun c => typed c /\ greeks c = None) chain <->
          Exists (fun c => typed c /\ exists e, Tradier.greeks_mid_iv c = Raise e) chain)
    as ->.
  { split; intros H; (eapply Exists_impl; [exact H|]); intros c [Hty Hc];
      (split; [done|by apply greeks_mid_iv_Raise]). }
  rewrite <- (by_type_is_Raise _ _ [] []).
  destruct (Tradier.by_type _ _ _ _) as [data|e].
  - split; [by intros [? ?]|done].
  - split; eauto.
Qed.

(** X8: [_get_implied_volatility] never raises. It returns the two lists
    when every call and every put of the chain has greeks, and the empty
    dict as soon as one of them has none; a record of another option type
    is not looked at. *)
Theorem implied_volatility_or_empty (chain : list Contract) :
  (forall e, Tradier._get_implied_volatility chain <> Raise e) /\
  (Forall (fun c => typed c -> is_Some (greeks c)) chain <->
   exists r, Tradier._get_implied_volatility chain = Ok (Some r)) /\
  (Exists (fun c => typed c /\ greeks c = None) chain <->
   Tradier._get_implied_volatility chain = Ok None).
Proof.
  unfold Tradier._get_implied_volatility. split_and!.
  - intros e. by destruct (Tradier.by_type _ _ _ _).
  - rewrite (Forall_iff _ _ (fun c => typed c -> exists v, Tradier.greeks_mid_iv c = Ok v))
      by (intros c; by rewrite greeks_mid_iv_Ok).
    rewrite <- (by_type_is_Ok _ _ [] []).
    destruct (Tradier.by_type _ _ _ _) as [data|e].
    + split; eauto.
    + split; [by intros [? ?]|by intros [? ?]].
  - apply implied_volatility_None_iff.
Qed.

Lemma implied_volatility_or_empty_witness :
  (exists r, Tradier._get_implied_volatility quoted_chain = Ok (Some r)) /\
  Tradier._get_implied_volatility null_greeks_chain = Ok None.
Proof.
  destruct (implied_volatility_or_empty quoted_chain) as (_ & [Hsome _] & _).
  destruct (implied_volatility_or_empty null_greeks_chain) as (_ & _ & [Hnone _]).
  split.
  - apply Hsome. decide_closed.
  - apply Hnone. unfold null_greeks_chain. apply Exists_app. right.
    constructor. split; [by right|reflexivity].
Defined.

(** ** Extractors: volume, prices and greeks *)




Lemma sides_length_le (chain : list Contract) :
  (length (side "call" chain) + length (side "put" chain) <= length chain)%nat.
Proof.
  induction chain as [|c chain IH]; [done|]. rewrite !side_cons.
  destruct (decide (option_type c = "call")) as [Hc|Hc].
  - rewrite decide_False by (by rewrite Hc). simpl. lia.
  - case_decide; simpl; lia.
Qed.

(** X10: [_get_greeks] never raises and keeps one entry for each call
    and each put, in provider order and with its greeks as they are,
    null or not; repeated strikes stay repeated. Only records that are
    neither call nor put are left out. *)
Theorem greeks_one_entry_per_contract (chain : list Contract) :
  exists r, Tradier._get_greeks chain = Ok r /\
    Tradier.Calls r = greeks_entry <$> side "call" chain /\
    Tradier.Puts r = greeks_entry <$> side "put" chain /\
    (length (Tradier.Calls r) + length (Tradier.Puts r) <= length chain)%nat /\
    (Forall typed chain ->
     (length (Tradier.Calls r) + length (Tradier.Puts r))%nat = length chain).
Proof.
  unfold Tradier._get_greeks. rewrite greeks_by_type_eq. eexists.
  split; [done|]. cbn. rewrite !length_fmap. split_and!; [done..| |].
  - apply sides_length_le.
  - intros Hty. rewrite <- length_app. by rewrite sides_Permutation.
Qed.

Lemma greeks_one_entry_per_contract_witness :
  exists r, Tradier._get_greeks repeated_greeks_chain = Ok r /\
            (length (Tradier.Calls r) + length (Tradier.Puts r))%nat
            = length repeated_greeks_chain.
Proof.
  destruct (greeks_one_entry_per_contract repeated_greeks_chain)
    as (r & Hr & _ & _ & _ & Hlen).
  exists r. split; [exact Hr|]. apply Hlen. decide_closed.
Defined.

(** ** The data of [plot_greeks] *)

Lemma greek_by_strike_from (greek_letter : string)
    (entries : list (StrikeValue (option Greeks))) (d0 : dict (option Q)) :
  let body := fun d strike =>
    match sv_value strike with
    | Some g => Ok (dict_set (sv_strike strike) (Tradier.greeks_get g greek_letter) d)
    | None => Raise AttributeError
    end in
  Exists (fun e => sv_value e = None) entries /\
  for_fold body d0 entries = Raise AttributeError \/
  Forall (fun e => is_Some (sv_value e)) entries /\
  exists d, for_fold body d0 entries = Ok d /\
            d.*1 = foldl add_key d0.*1 (sv_strike <$> entries).
Proof.
  cbv zeta. revert d0. induction entries as [|e entries IH]; intros d0.
  { right. split; [constructor|]. by exists d0. }
  cbn [for_fold]. destruct (sv_value e) as [g|] eqn:He.
  - rewrite bind_Ok.
    destruct (IH (dict_set (sv_strike e) (Tradier.greeks_get g greek_letter) d0))
      as [[Hex Hraise]|[Hall (d & Hd & Hkeys)]].
    + left. split; [by apply Exists_cons_tl|done].
    + right. split; [constructor; [by rewrite He|done]|].
      exists d. split; [done|]. by rewrite Hkeys, keys_dict_set.
  - left. split; [by apply Exists_cons_hd|done].
Qed.

Lemma null_greeks_sides (chain : list Contract) :
  Exists (fun c => typed c /\ greeks c = None) chain <->
  Exists (fun e => sv_value e = None) (greeks_entry <$> side "call" chain) \/
  Exists (fun e => sv_value e = None) (greeks_entry <$> side "put" chain).
Proof.
  rewrite !Exists_exists. unfold side, typed. split.
  - intros (c & Hc & [Hty|Hty] & Hnone); [left|right];
      (exists (greeks_entry c); split; [|done]);
      apply list_elem_of_fmap_2; by apply list_elem_of_filter.
  - intros [(e & He & Hnone)|(e & He & Hnone)];
      apply list_elem_of_fmap in He as (c & -> & Hc);
      apply list_elem_of_filter in Hc as [Hty Hc]; exists c; eauto.
Qed.

Lemma Forall_is_Some_not_None {A B : Type} (f : A -> option B) (l : list A) :
  Forall (fun x => is_Some (f x)) l -> Exists (fun x => f x = None) l -> False.
Proof.
  rewrite Forall_forall, Exists_exists. intros Hall (x & Hx & Hnone).
  destruct (Hall x Hx) as [y Hy]. congruence.
Qed.

(** X11: [plot_greeks] has no [try] around its loops: it raises
    [AttributeError] exactly when a call or a put of the chain has null
    greeks, which are the chains for which [_get_implied_volatility]
    returns the empty dict, and it raises nothing else. Otherwise the
    strikes it plots on each side are the distinct strikes of the side in
    provider order of first occurrence, with one value each. *)
Theorem plot_greeks_null_greeks (chain : list Contract) (greek_letter : string) :
  (Tradier.plot_greeks_data chain greek_letter = Raise AttributeError <->
   Exists (fun c => typed c /\ greeks c = None) chain) /\
  (Tradier.plot_greeks_data chain greek_letter = Raise AttributeError <->
   Tradier._get_implied_volatility chain = Ok None) /\
  (forall e, Tradier.plot_greeks_data chain greek_letter = Raise e ->
             e = AttributeError) /\
  (forall s, Tradier.plot_greeks_data chain greek_letter = Ok s ->
     Tradier.call_strikes s = first_occurrences (strike <$> side "call" chain) /\
     Tradier.put_strikes s = first_occurrences (strike <$> side "put" chain) /\
     length (Tradier.call_values s) = length (Tradier.call_strikes s) /\
     length (Tradier.put_values s) = length (Tradier.put_strikes s)).
Proof.
  rewrite <- implied_volatility_None_iff, null_greeks_sides.
  unfold Tradier.plot_greeks_data, Tradier._get_greeks, Tradier.greek_by_strike.
  rewrite greeks_by_type_eq, bind_Ok. cbn [Tradier.Calls Tradier.Puts fst snd app].
  destruct (greek_by_strike_from greek_letter (greeks_entry <$> side "call" chain) [])
    as [[Hcx ->]|[Hca (dc & -> & Hdc)]].
  { rewrite bind_Raise. split_and!; [naive_solver..| |by intros s].
    by intros e [= <-]. }
  rewrite bind_Ok.
  destruct (greek_by_strike_from greek_letter (greeks_entry <$> side "put" chain) [])
    as [[Hpx ->]|[Hpa (dp & -> & Hdp)]].
  { rewrite bind_Raise. split_and!; [naive_solver..| |by intros s].
    by intros e [= <-]. }
  rewrite bind_Ok.
  assert (~ (Exists (fun e => sv_value e = None) (greeks_entry <$> side "call" chain) \/
             Exists (fun e => sv_value e = None) (greeks_entry <$> side "put" chain)))
    as Hno.
  { intros [Hx|Hx].
    - exact (Forall_is_Some_not_None sv_value _ Hca Hx).
    - exact (Forall_is_Some_not_None sv_value _ Hpa Hx). }
  split_and!; [split; [discriminate|done]..|discriminate|].
  intros s [= <-]. cbn. rewrite !length_fmap, Hdc, Hdp, !greeks_entry_strikes.
  done.
Qed.

Lemma plot_greeks_null_greeks_witness :
  Tradier.plot_greeks_data null_greeks_chain "delta" = Raise AttributeError /\
  exists s, Tradier.plot_greeks_data quoted_chain "delta" = Ok s /\
            Tradier.call_strikes s = first_occurrences (strike <$> side "call" quoted_chain).
Proof.
  destruct (plot_greeks_null_greeks null_greeks_chain "delta") as ([_ Hraise] & _).
  destruct (plot_greeks_null_greeks quoted_chain "delta") as (_ & _ & _ & Hok).
  split.
  - apply Hraise. unfold null_greeks_chain. apply Exists_app. right.
    constructor. split; [by right|reflexivity].
  - eexists. split; [vm_compute; reflexivity|].
    eapply Hok. vm_compute. reflexivity.
Defined.

(** ** [get_strikes] *)

Lemma desc_set_keys (k v : string) (d : list (string * string)) (x : string) :
  x ∈ (Tradier.desc_set k v d).*1 <-> x = k \/ x ∈ d.*1.
Proof.
  induction d as [|[k' v'] d IH]; cbn [Tradier.desc_set].
  - rewrite fmap_cons, elem_of_cons. naive_solver.
  - case_decide as Hk; rewrite !fmap_cons, !elem_of_cons; cbn [fst].
    + subst. naive_solver.
    + rewrite IH. naive_solver.
Qed.

Lemma desc_set_NoDup (k v : string) (d : list (string * string)) :
  NoDup d.*1 -> NoDup (Tradier.desc_set k v d).*1.
Proof.
  induction d as [|[k' v'] d IH]; cbn [Tradier.desc_set]; intros Hnd.
  - rewrite fmap_cons. apply NoDup_singleton.
  - rewrite fmap_cons in Hnd. apply NoDup_cons in Hnd as [Hk' Hnd].
    case_decide as Hk; rewrite fmap_cons; apply NoDup_cons; cbn [fst].
    + done.
    + split; [|by apply IH]. rewrite desc_set_keys. naive_solver.
Qed.

Lemma desc_set_pairs (k v : string) (d : list (string * string)) (x y : string) :
  (x, y) ∈ Tradier.desc_set k v d -> (x, y) = (k, v) \/ (x, y) ∈ d.
Proof.
  induction d as [|[k' v'] d IH]; cbn [Tradier.desc_set].
  - rewrite list_elem_of_singleton. by left.
  - case_decide as Hk; rewrite !elem_of_cons.
    + subst. naive_solver.
    + naive_solver.
Qed.

Lemma strikes_by_description_spec (l : list Tradier.Listing)
    (cs ps : list (string * string)) :
  let r := Tradier.strikes_by_description l cs ps in
  (forall k, k ∈ r.1.*1 <->
     k ∈ cs.*1 \/
     Tradier.contains "Call" k = true /\
     exists s, s ∈ l /\ Tradier.description s = k) /\
  (forall k, k ∈ r.2.*1 <->
     k ∈ ps.*1 \/
     Tradier.contains "Call" k = false /\
     exists s, s ∈ l /\ Tradier.description s = k) /\
  (NoDup cs.*1 -> NoDup r.1.*1) /\
  (NoDup ps.*1 -> NoDup r.2.*1) /\
  (forall k v, (k, v) ∈ r.1 ->
     (k, v) ∈ cs \/
     exists s, s ∈ l /\ Tradier.description s = k /\ Tradier.symbol s = v) /\
  (forall k v, (k, v) ∈ r.2 ->
     (k, v) ∈ ps \/
     exists s, s ∈ l /\ Tradier.description s = k /\ Tradier.symbol s = v).
Proof.
  cbv zeta. revert cs ps. induction l as [|s l IH]; intros cs ps.
  { cbn. split_and!; try done; intros k; rewrite ?elem_of_nil;
      try (setoid_rewrite elem_of_nil); naive_solver. }
  cbn [Tradier.strikes_by_description].
  destruct (Tradier.contains "Call" (Tradier.description s)) eqn:Hcall.
  - destruct (IH (Tradier.desc_set (Tradier.description s) (Tradier.symbol s) cs) ps)
      as (Hc & Hp & Hcn & Hpn & Hcv & Hpv).
    split_and!.
    + intros k. rewrite Hc, desc_set_keys. setoid_rewrite elem_of_cons.
      naive_solver.
    + intros k. rewrite Hp. setoid_rewrite elem_of_cons.
      split; [naive_solver|]. intros [?|(Hk & s' & [->|Hs'] & Hd)]; [by left| |].
      * congruence.
      * right. eauto.
    + intros Hnd. by apply Hcn, desc_set_NoDup.
    + done.
    + intros k v [Hkv|(s' & Hs' & Hd)]%Hcv.
      * apply desc_set_pairs in Hkv as [[= -> ->]|Hkv]; [|by left].
        right. exists s. split_and!; [left|done..].
      * right. exists s'. split; [by right|done].
    + intros k v [Hkv|(s' & Hs' & Hd)]%Hpv; [by left|].
      right. exists s'. split; [by right|done].
  - destruct (IH cs (Tradier.desc_set (Tradier.description s) (Tradier.symbol s) ps))
      as (Hc & Hp & Hcn & Hpn & Hcv & Hpv).
    split_and!.
    + intros k. rewrite Hc. setoid_rewrite elem_of_cons.
      split; [naive_solver|]. intros [?|(Hk & s' & [->|Hs'] & Hd)]; [by left| |].
      * congruence.
      * right. eauto.
    + intros k. rewrite Hp, desc_set_keys. setoid_rewrite elem_of_cons.
      naive_solver.
    + done.
    + intros Hnd. by apply Hpn, desc_set_NoDup.
    + intros k v [Hkv|(s' & Hs' & Hd)]%Hcv; [by left|].
      right. exists s'. split; [by right|done].
    + intros k v [Hkv|(s' & Hs' & Hd)]%Hpv.
      * apply desc_set_pairs in Hkv as [[= -> ->]|Hkv]; [|by left].
        right. exists s. split_and!; [left|done..].
      * right. exists s'. split; [by right|done].
Qed.

(** X12: [get_strikes] files every record of the chain under its
    description, in ['calls'] when the description contains [Call] and
    in ['puts'] otherwise, whatever the record's option type; no
    description is in both dicts, none is lost, and each is paired with
    the symbol of a record of the chain that has this description. *)
Theorem get_strikes_by_description (listings : list Tradier.Listing) :
  let calls := (Tradier.get_strikes listings).1 in
  let puts := (Tradier.get_strikes listings).2 in
  NoDup calls.*1 /\ NoDup puts.*1 /\
  (forall k, k ∈ calls.*1 <->
     Tradier.contains "Call" k = true /\
     exists s, s ∈ listings /\ Tradier.description s = k) /\
  (forall k, k ∈ puts.*1 <->
     Tradier.contains "Call" k = false /\
     exists s, s ∈ listings /\ Tradier.description s = k) /\
  (forall k, k ∈ calls.*1 -> k ∈ puts.*1 -> False) /\
  (forall k v, (k, v) ∈ calls ++ puts ->
     exists s, s ∈ listings /\ Tradier.description s = k /\ Tradier.symbol s = v).
Proof.
  cbv zeta. unfold Tradier.get_strikes.
  destruct (strikes_by_description_spec listings [] [])
    as (Hc & Hp & Hcn & Hpn & Hcv & Hpv).
  split_and!.
  - apply Hcn. constructor.
  - apply Hpn. constructor.
  - intros k. rewrite Hc. rewrite elem_of_nil. naive_solver.
  - intros k. rewrite Hp. rewrite elem_of_nil. naive_solver.
  - intros k [Hk|[Hk _]]%Hc [Hk'|[Hk' _]]%Hp;
      try (by apply elem_of_nil in Hk); try (by apply elem_of_nil in Hk').
    congruence.
  - intros k v [[Hkv|?]%Hcv|[Hkv|?]%Hpv]%elem_of_app;
      try (by apply elem_of_nil in Hkv); done.
Qed.

Lemma get_strikes_by_description_witness :
  (Tradier.get_strikes sample_listings).1 =
    [("AAPL Jan 17 2025 $100.00 Call", "AAPL250117C00100001")] /\
  (Tradier.get_strikes sample_listings).2.*1 =
    ["AAPL Jan 17 2025 $100.00 Put"; "Apple Inc"] /\
  ("Apple Inc" ∈ (Tradier.get_strikes sample_listings).1.*1 -> False).
Proof.
  split; [reflexivity|]. split; [reflexivity|].
  destruct (get_strikes_by_description sample_listings) as (_ & _ & _ & _ & Hdisj & _).
  intros Hin. apply (Hdisj _ Hin). decide_closed.
Defined.
